(** * Batch mailer: a shallow embedding of the server pipeline

    The server reads a worksheet of recipients, renders one image per
    recipient on a canvas that has the template's size, mails it, and
    reports progress over a socket.  This file embeds [createTransporter],
    [generatePersonalizedImage], [sendEmail] and [processExcelFile] and
    proves properties of the batch run.

    Conventions.
    - A JavaScript string is the list of its UTF-16 code units ([N]).
    - Collaborators outside the repository (the spreadsheet reader, the
      canvas, the mail transport, the process environment) are gathered
      in a [World] record: what they return, and when they throw.
    - The mutable state the code touches (the [results] object, the files
      of the [generated] directory, the messages written to the socket)
      lives in a [Sys] record threaded by a state-and-exception monad. *)

From Stdlib Require Import String Ascii DecimalString DecimalNat QArith Sorted.
From stdpp Require Import base option list gmap.

Local Open Scope N_scope.
Local Open Scope nat_scope.
Local Open Scope list_scope.

(** ** Strings *)

Module Js.

Abbreviation jsstring := (list N).

(** The code units of a literal of the source. *)
Definition lit (s : string) : jsstring :=
  List.map N_of_ascii (list_ascii_of_string s).

(** ECMAScript [WhiteSpace] and [LineTerminator]: what [trim] strips and
    what the class [\s] of a regular expression matches. *)
Definition is_space (c : N) : bool :=
  ((9 <=? c) && (c <=? 13) || (c =? 32) || (c =? 160) || (c =? 5760)
   || (8192 <=? c) && (c <=? 8202) || (c =? 8232) || (c =? 8233)
   || (c =? 8239) || (c =? 8287) || (c =? 12288) || (c =? 65279))%N.

Fixpoint trimStart (s : jsstring) : jsstring :=
  match s with
  | [] => []
  | c :: s' => if is_space c then trimStart s' else s
  end.

Definition trimEnd (s : jsstring) : jsstring := rev (trimStart (rev s)).

(** [String.prototype.trim] *)
Definition trim (s : jsstring) : jsstring := trimEnd (trimStart s).

Definition hyphen : N := 45%N.

(** [s.replace(/\s+/g, '-')]: a left-to-right scan, [in_run] telling
    whether the previous code unit belonged to the match being consumed
    (the [+] is greedy, so a match is a maximal run). *)
Fixpoint replace_from (in_run : bool) (s : jsstring) : jsstring :=
  match s with
  | [] => []
  | c :: s' =>
      if is_space c
      then (if in_run then replace_from true s' else hyphen :: replace_from true s')
      else c :: replace_from false s'
  end.

Definition replace_spaces (s : jsstring) : jsstring := replace_from false s.

(** Decimal text of a number, as a template literal prints a
    non-negative integer. *)
Definition of_nat (n : nat) : jsstring :=
  lit (NilZero.string_of_uint (Nat.to_uint n)).

(** Truthiness of a value that is a string or [undefined]. *)
Definition truthy (v : option jsstring) : bool :=
  match v with
  | Some (_ :: _) => true
  | _ => false
  end.

(** [path.join] on segments that need no normalisation. *)
Definition path_join (segs : list jsstring) : jsstring :=
  match segs with
  | [] => lit "."
  | s :: rest => fold_left (fun acc x => acc ++ lit "/" ++ x) rest s
  end.

End Js.
Import Js.

(** ** Data *)

(** The object pushed to [rows]: [{ name, phone, email }]. *)
Record Recipient := mkRecipient {
  name : jsstring;
  phone : jsstring;
  email : jsstring
}.

(** The value of a worksheet cell: nothing, a string, a number or a date
    (with the text [toString()] gives of it), a boolean, or one of the
    objects the spreadsheet reader uses for a hyperlink
    ([{ text, hyperlink }]), a formula ([{ formula, result }], the result
    being absent when none is stored), rich text (the texts of its
    fragments) and an error ([{ error }]). *)
Inductive CellValue :=
| VNull
| VString (s : jsstring)
| VNumber (shown : jsstring)
| VBoolean (b : bool)
| VDate (shown : jsstring)
| VHyperlink (text hyperlink : jsstring)
| VFormula (formula : jsstring) (result : option jsstring)
| VRichText (texts : list jsstring)
| VError (code : jsstring).

(** A row, as its cells from column 1 on; a column past the end reads as
    an empty cell. *)
Definition Row := list CellValue.

(** What [worksheet.eachRow] yields: each row that has values, with its
    row number, top to bottom. *)
Definition Worksheet := list (nat * Row).

Definition getCell (row : Row) (col : nat) : CellValue :=
  nth (col - 1) row VNull.

(** [v?.toString()] *)
Definition toString (v : CellValue) : option jsstring :=
  match v with
  | VNull => None
  | VString s => Some s
  | VNumber shown => Some shown
  | VBoolean b => Some (lit (if b then "true" else "false"))
  | VDate shown => Some shown
  | VHyperlink _ _ | VFormula _ _ | VRichText _ | VError _ =>
      Some (lit "[object Object]")
  end.

(** [row.getCell(col).value?.toString().trim()] *)
Definition cell_text (row : Row) (col : nat) : option jsstring :=
  trim <$> toString (getCell row col).

(** The callback given to [eachRow], as a function of the array it
    pushes to. *)
Definition eachRow_callback (rows : list Recipient) (row : Row) (rowNumber : nat)
  : list Recipient :=
  if 1 <? rowNumber then
    let name := cell_text row 1 in
    let phone := cell_text row 2 in
    let email := cell_text row 3 in
    if truthy name && truthy phone && truthy email then
      match name, phone, email with
      | Some n, Some p, Some e => rows ++ [mkRecipient n p e]
      | _, _, _ => rows
      end
    else rows
  else rows.

(** [const rows = []; worksheet.eachRow(callback)] *)
Definition extract_rows (ws : Worksheet) : list Recipient :=
  fold_left (fun rows '(rowNumber, row) => eachRow_callback rows row rowNumber) ws [].

(** ** The canvas *)

Record Image := mkImage {
  width : Z;
  height : Z;
  src : jsstring
}.

(** The drawing state of a 2D context that the code sets. *)
Record Style := mkStyle {
  fillStyle : jsstring;
  strokeStyle : jsstring;
  lineWidth : Z;
  textAlign : jsstring;
  font : jsstring
}.

Inductive DrawOp :=
| op_drawImage (img : Image) (x y : Z)
| op_strokeText (st : Style) (text : jsstring) (x : Q) (y : Z)
| op_fillText (st : Style) (text : jsstring) (x : Q) (y : Z).

Record Canvas := mkCanvas {
  canvas_width : Z;
  canvas_height : Z;
  ctx : Style;
  drawn : list DrawOp
}.

(** A PNG buffer: the size of the canvas it encodes and what was drawn. *)
Record Png := mkPng {
  png_width : Z;
  png_height : Z;
  png_drawn : list DrawOp
}.

Definition createCanvas (w h : Z) : Canvas :=
  mkCanvas w h
    (mkStyle (lit "#000000") (lit "#000000") 1 (lit "start") (lit "10px sans-serif"))
    [].

Definition drawImage (img : Image) (x y : Z) (c : Canvas) : Canvas :=
  mkCanvas (canvas_width c) (canvas_height c) (ctx c) (drawn c ++ [op_drawImage img x y]).

Definition set_ctx (f : Style → Style) (c : Canvas) : Canvas :=
  mkCanvas (canvas_width c) (canvas_height c) (f (ctx c)) (drawn c).

Definition strokeText (text : jsstring) (x : Q) (y : Z) (c : Canvas) : Canvas :=
  mkCanvas (canvas_width c) (canvas_height c) (ctx c)
    (drawn c ++ [op_strokeText (ctx c) text x y]).

Definition fillText (text : jsstring) (x : Q) (y : Z) (c : Canvas) : Canvas :=
  mkCanvas (canvas_width c) (canvas_height c) (ctx c)
    (drawn c ++ [op_fillText (ctx c) text x y]).

(** [canvas.toBuffer('image/png')] *)
Definition toBuffer (c : Canvas) : Png :=
  mkPng (canvas_width c) (canvas_height c) (drawn c).

(** The drawing part of [generatePersonalizedImage], lines 77 to 106. *)
Definition paint (templateImage : Image) (data : Recipient) : Canvas :=
  let canvas := createCanvas (width templateImage) (height templateImage) in
  let canvas := drawImage templateImage 0 0 canvas in
  let canvas := set_ctx (λ s, mkStyle (lit "#FFFFFF") (strokeStyle s) (lineWidth s) (textAlign s) (font s)) canvas in
  let canvas := set_ctx (λ s, mkStyle (fillStyle s) (lit "#000000") (lineWidth s) (textAlign s) (font s)) canvas in
  let canvas := set_ctx (λ s, mkStyle (fillStyle s) (strokeStyle s) 2 (textAlign s) (font s)) canvas in
  let canvas := set_ctx (λ s, mkStyle (fillStyle s) (strokeStyle s) (lineWidth s) (lit "center") (font s)) canvas in
  let canvas := set_ctx (λ s, mkStyle (fillStyle s) (strokeStyle s) (lineWidth s) (textAlign s) (lit "bold 36px Arial")) canvas in
  let centerX := (inject_Z (canvas_width canvas) / 2)%Q in
  let nameY := (canvas_height canvas - 250)%Z in
  let phoneY := (canvas_height canvas - 200)%Z in
  let emailY := (canvas_height canvas - 150)%Z in
  let canvas := strokeText (name data) centerX nameY canvas in
  let canvas := fillText (name data) centerX nameY canvas in
  let canvas := set_ctx (λ s, mkStyle (fillStyle s) (strokeStyle s) (lineWidth s) (textAlign s) (lit "bold 28px Arial")) canvas in
  let canvas := strokeText (lit "Phone: " ++ phone data) centerX phoneY canvas in
  let canvas := fillText (lit "Phone: " ++ phone data) centerX phoneY canvas in
  let canvas := set_ctx (λ s, mkStyle (fillStyle s) (strokeStyle s) (lineWidth s) (textAlign s) (lit "bold 24px Arial")) canvas in
  let canvas := strokeText (lit "Email: " ++ email data) centerX emailY canvas in
  let canvas := fillText (lit "Email: " ++ email data) centerX emailY canvas in
  canvas.

(** ** Mail *)

Record Attachment := mkAttachment {
  filename : jsstring;
  path : jsstring
}.

Record MailOptions := mkMailOptions {
  from : option jsstring;
  to : jsstring;
  subject : jsstring;
  html : jsstring;
  attachments : list Attachment
}.

(** What [createTransporter] hands to the mail library. *)
Record Transporter := mkTransporter {
  service : jsstring;
  auth_user : jsstring;
  auth_pass : jsstring
}.

(** ** Progress messages *)

(** The [results] object. *)
Record Results := mkResults {
  total : nat;
  success : nat;
  failed : nat;
  errors : list jsstring
}.

(** The [data] of a progress or completion message:
    [{ ...results, processing, currentIndex }], where [currentIndex] is
    present only when the code writes it. *)
Record Status := mkStatus {
  spread : Results;
  processing : bool;
  currentIndex : option nat
}.

(** A message written to the socket, by its [type]. *)
Inductive Event :=
| progress (data : Status)
| complete (data : Status)
| error (message : jsstring).

(** ** Collaborators and state *)

Inductive Res (A : Type) :=
| Ok (a : A)
| Throw (message : jsstring).
Arguments Ok {A} a.
Arguments Throw {A} message.

Record World := mkWorld {
  dirname : jsstring;
  EMAIL : option jsstring;
  APP_PASSWORD : option jsstring;
  (** [workbook.xlsx.readFile(filePath)] then [workbook.getWorksheet(1)],
      which is [undefined] when the workbook has no such sheet *)
  readFile : jsstring → Res (option Worksheet);
  (** [fs.existsSync], asked about the template only *)
  existsSync : jsstring → bool;
  (** whether the mail library refuses to build a transport *)
  mailer_fault : option jsstring;
  loadImage : jsstring → Res Image;
  (** whether a canvas, encoding or write call throws for this output *)
  canvas_fault : jsstring → Recipient → option jsstring;
  (** whether the transport rejects this mail *)
  sendMail_fault : MailOptions → option jsstring;
  (** whether [fs.unlinkSync] throws for this path although the file is
      there (a file that is busy, a directory that may not be written) *)
  unlink_fault : jsstring → option jsstring;
  (** whether [ws.send] throws for the progress message of the record
      at this index (line 206) *)
  update_fault : nat → option jsstring
}.

(** Calls to the collaborators that act on a record, in order. *)
Inductive Call :=
| call_generate (outputPath : jsstring) (data : Recipient)
| call_sendMail (mailOptions : MailOptions)
| call_unlink (p : jsstring).

Record Sys := mkSys {
  results : Results;
  disk : gmap jsstring Png;
  wire : list Event;
  trace : list Call
}.

(** State and exceptions: a computation maps a state to a state and
    either a value or the message of the error thrown. *)
Definition M (A : Type) : Type := Sys → Sys * Res A.

#[global] Instance M_ret : MRet M := λ A a s, (s, Ok a).
#[global] Instance M_bind : MBind M := λ A B k m s,
  match m s with
  | (s', Ok a) => k a s'
  | (s', Throw e) => (s', Throw e)
  end.

Definition throw {A} (message : jsstring) : M A := λ s, (s, Throw message).

(** [try { body } catch (error) { handler(error.message) }] *)
Definition try_catch {A} (body : M A) (handler : jsstring → M A) : M A := λ s,
  match body s with
  | (s', Ok a) => (s', Ok a)
  | (s', Throw e) => handler e s'
  end.

Definition lift {A} (r : Res A) : M A := λ s, (s, r).

Definition get_results : M Results := λ s, (s, Ok (results s)).

Definition set_results (f : Results → Results) : M unit := λ s,
  (mkSys (f (results s)) (disk s) (wire s) (trace s), Ok tt).

(** [ws.send(JSON.stringify(e))] on a socket that takes the message:
    the sends before the loop, after it and in the outer [catch].  The
    send of the loop, which may throw inside the [try] of a record, is
    [send_update] below. *)
Definition ws_send (e : Event) : M unit := λ s,
  (mkSys (results s) (disk s) (wire s ++ [e]) (trace s), Ok tt).

Definition record_call (c : Call) : M unit := λ s,
  (mkSys (results s) (disk s) (wire s) (trace s ++ [c]), Ok tt).

Definition writeFileSync (p : jsstring) (buffer : Png) : M unit := λ s,
  (mkSys (results s) (<[p := buffer]> (disk s)) (wire s) (trace s), Ok tt).

(** [fs.unlinkSync(p)]: it throws when the file system refuses, and
    when there is no such file. *)
Definition unlinkSync (w : World) (p : jsstring) : M unit := λ s,
  let s := mkSys (results s) (disk s) (wire s) (trace s ++ [call_unlink p]) in
  match unlink_fault w p with
  | Some e => (s, Throw e)
  | None =>
      match disk s !! p with
      | Some _ => (mkSys (results s) (delete p (disk s)) (wire s) (trace s), Ok tt)
      | None => (s, Throw (lit "ENOENT: no such file or directory, unlink '" ++ p ++ lit "'"))
      end
  end.

(** The [ws.send] of the loop, for the record at index [i]. *)
Definition send_update (w : World) (i : nat) (e : Event) : M unit :=
  match update_fault w i with
  | Some err => throw err
  | None => ws_send e
  end.

(** ** The server's functions *)

Definition createTransporter (w : World) : M Transporter :=
  if negb (truthy (EMAIL w)) || negb (truthy (APP_PASSWORD w)) then
    throw (lit "Email credentials not configured")
  else
    match mailer_fault w with
    | Some e => throw e
    | None =>
        mret (mkTransporter (lit "gmail")
                (default [] (EMAIL w)) (default [] (APP_PASSWORD w)))
    end.

Definition generatePersonalizedImage (w : World)
    (templatePath : jsstring) (data : Recipient) (outputPath : jsstring) : M jsstring :=
  record_call (call_generate outputPath data);;
  try_catch
    (templateImage ← lift (loadImage w templatePath);
     let canvas := paint templateImage data in
     match canvas_fault w outputPath data with
     | Some e => throw e
     | None =>
         let buffer := toBuffer canvas in
         writeFileSync outputPath buffer;;
         mret outputPath
     end)
    (λ e, throw e).

Definition nl : jsstring := [10%N].
Definition quote : jsstring := [34%N].
Definition indent (n : nat) : jsstring := replicate n 32%N.

Definition subject_line : jsstring := lit "Your Personalized Investment Card".

(** The template literal of the body, before and after [${recipient.name}]. *)
Definition html_before : jsstring :=
  nl ++ indent 6 ++ lit "<div style=" ++ quote
     ++ lit "font-family: Arial, sans-serif; max-width: 600px; margin: 0 auto;"
     ++ quote ++ lit ">"
  ++ nl ++ indent 8 ++ lit "<h2 style=" ++ quote ++ lit "color: #3B82F6;" ++ quote
     ++ lit ">Your Personalized Investment Card</h2>"
  ++ nl ++ indent 8 ++ lit "<p>Dear ".

Definition html_after : jsstring :=
  lit ",</p>"
  ++ nl ++ indent 8 ++ lit "<p>Thank you for your interest in our Systematic Investment Plan. Please find your personalized investment card attached.</p>"
  ++ nl ++ indent 8 ++ lit "<p>This card contains your contact information and highlights the key benefits of our investment approach.</p>"
  ++ nl ++ indent 8 ++ lit "<p>For any questions or to start your investment journey, please contact us using the details provided on your card.</p>"
  ++ nl ++ indent 8 ++ lit "<p>Best regards,<br>Investment Team</p>"
  ++ nl ++ indent 6 ++ lit "</div>"
  ++ nl ++ indent 4.

Definition mail_for (w : World) (recipient : Recipient) (imagePath : jsstring) : MailOptions :=
  {| from := EMAIL w;
     to := email recipient;
     subject := subject_line;
     html := html_before ++ name recipient ++ html_after;
     attachments :=
       [ {| filename := lit "investment-card-" ++ replace_spaces (name recipient) ++ lit ".png";
            path := imagePath |} ] |}.

(** [transporter.sendMail(mailOptions)] *)
Definition transporter_sendMail (w : World) (transporter : Transporter)
    (mailOptions : MailOptions) : M unit :=
  record_call (call_sendMail mailOptions);;
  match sendMail_fault w mailOptions with
  | Some e => throw e
  | None => mret tt
  end.

Definition sendEmail (w : World) (transporter : Transporter)
    (recipient : Recipient) (imagePath : jsstring) : M unit :=
  let mailOptions := mail_for w recipient imagePath in
  transporter_sendMail w transporter mailOptions.

Definition card_path (w : World) (i : nat) : jsstring :=
  path_join [dirname w; lit "generated"; lit "card-" ++ of_nat (i + 1) ++ lit ".png"].

Definition template_path (w : World) : jsstring :=
  path_join [dirname w; lit "assets"; lit "template.png"].

(** The body of the [for] loop at index [i], with its [try] and [catch]. *)
Definition process_row (w : World) (transporter : Transporter)
    (templatePath : jsstring) (i : nat) (row : Recipient) : M unit :=
  try_catch
    (let outputPath := card_path w i in
     generatePersonalizedImage w templatePath row outputPath;;
     sendEmail w transporter row outputPath;;
     set_results (λ r, mkResults (total r) (success r + 1) (failed r) (errors r));;
     unlinkSync w outputPath;;
     r ← get_results;
     send_update w i
       (progress {| spread := r; processing := true; currentIndex := Some (i + 1) |}))
    (λ e,
       set_results (λ r, mkResults (total r) (success r) (failed r + 1) (errors r));;
       set_results (λ r, mkResults (total r) (success r) (failed r)
                                   (errors r ++ [name row ++ lit ": " ++ e]))).

(** [for (let i = ...; i < rows.length; i++)], started at [i] on the rows
    from [i] on. *)
Fixpoint for_rows (w : World) (transporter : Transporter)
    (templatePath : jsstring) (i : nat) (rows : list Recipient) : M unit :=
  match rows with
  | [] => mret tt
  | row :: rest =>
      process_row w transporter templatePath i row;;
      for_rows w transporter templatePath (S i) rest
  end.

Definition no_worksheet : jsstring :=
  lit "Cannot read properties of undefined (reading 'eachRow')".

Definition processExcelFile (w : World) (filePath : jsstring) : M Results :=
  try_catch
    (worksheet ← lift (readFile w filePath);
     let templatePath := template_path w in
     if negb (existsSync w templatePath) then throw (lit "Template image not found")
     else
       transporter ← createTransporter w;
       set_results (λ _, mkResults 0 0 0 []);;
       rows ← match worksheet with
              | Some ws => mret (extract_rows ws)
              | None => throw no_worksheet
              end;
       set_results (λ r, mkResults (length rows) (success r) (failed r) (errors r));;
       r ← get_results;
       ws_send (progress {| spread := r; processing := true; currentIndex := None |});;
       for_rows w transporter templatePath 0 rows;;
       r ← get_results;
       ws_send (complete {| spread := r; processing := false; currentIndex := None |});;
       get_results)
    (λ e, ws_send (error e);; throw e).

(** A state before a run: nothing sent yet, and whatever files earlier
    runs left in the [generated] directory. *)
Definition fresh (files : gmap jsstring Png) : Sys :=
  mkSys (mkResults 0 0 0 []) files [] [].

Arguments lit : simpl never.
Arguments card_path : simpl never.
Arguments template_path : simpl never.
Arguments mail_for : simpl never.
Arguments paint : simpl never.

(** ** Outcomes of one record *)

(** The message with which rendering record [i] throws, if it does. *)
Definition render_fault (w : World) (i : nat) (row : Recipient) : option jsstring :=
  match loadImage w (template_path w) with
  | Throw e => Some e
  | Ok _ => canvas_fault w (card_path w i) row
  end.

(** The message with which the transport rejects the mail of record [i],
    if it does. *)
Definition send_fault (w : World) (i : nat) (row : Recipient) : option jsstring :=
  sendMail_fault w (mail_for w row (card_path w i)).

(** The message with which the clean-up or the progress message of
    record [i] throws, if one does: both come after [results.success++]. *)
Definition late_fault (w : World) (i : nat) : option jsstring :=
  match unlink_fault w (card_path w i) with
  | Some e => Some e
  | None => update_fault w i
  end.

(** Record [i] is rendered and its mail accepted. *)
Definition mailed (w : World) (i : nat) (row : Recipient) : bool :=
  match render_fault w i row, send_fault w i row with
  | None, None => true
  | _, _ => false
  end.

(** The error caught for record [i], if any. *)
Definition verdict (w : World) (i : nat) (row : Recipient) : option jsstring :=
  match render_fault w i row with
  | Some e => Some e
  | None =>
      match send_fault w i row with
      | Some e => Some e
      | None => late_fault w i
      end
  end.

Definition fail_with (row : Recipient) (e : jsstring) (r : Results) : Results :=
  mkResults (total r) (success r) (failed r + 1) (errors r ++ [name row ++ lit ": " ++ e]).

Definition sent (r : Results) : Results :=
  mkResults (total r) (success r + 1) (failed r) (errors r).

(** The entries pushed to [errors] by the records [rows], which start at
    index [i]. *)
Fixpoint entries (w : World) (i : nat) (rows : list Recipient) : list jsstring :=
  match rows with
  | [] => []
  | row :: rest =>
      match verdict w i row with
      | Some e => [name row ++ lit ": " ++ e]
      | None => []
      end ++ entries w (S i) rest
  end.

(** How many of them are mailed. *)
Fixpoint deliveries (w : World) (i : nat) (rows : list Recipient) : nat :=
  match rows with
  | [] => 0
  | row :: rest =>
      (if mailed w i row then 1 else 0) + deliveries w (S i) rest
  end.

(** How many of them are mailed and then fail in the clean-up or in the
    progress message, and so are counted in [success] and in [failed]. *)
Fixpoint recounts (w : World) (i : nat) (rows : list Recipient) : nat :=
  match rows with
  | [] => 0
  | row :: rest =>
      (if mailed w i row then match late_fault w i with Some _ => 1 | None => 0 end else 0)
      + recounts w (S i) rest
  end.

(** The counters after the turn of record [i]. *)
Definition turn_results (w : World) (i : nat) (row : Recipient) (r : Results) : Results :=
  let r := if mailed w i row then sent r else r in
  match verdict w i row with
  | Some e => fail_with row e r
  | None => r
  end.

(** The counters after the records [rows], which start at index [i]. *)
Fixpoint tally (w : World) (i : nat) (rows : list Recipient) (r : Results) : Results :=
  match rows with
  | [] => r
  | row :: rest => tally w (S i) rest (turn_results w i row r)
  end.

(** The progress message of the turn of record [i], if it is written. *)
Definition turn_update (w : World) (i : nat) (row : Recipient) (r : Results) : list Event :=
  match verdict w i row with
  | Some _ => []
  | None => [progress {| spread := sent r; processing := true; currentIndex := Some (i + 1) |}]
  end.

(** The progress messages they give rise to. *)
Fixpoint updates (w : World) (i : nat) (rows : list Recipient) (r : Results) : list Event :=
  match rows with
  | [] => []
  | row :: rest => turn_update w i row r ++ updates w (S i) rest (turn_results w i row r)
  end.

(** The calls to the renderer they give rise to. *)
Fixpoint generate_calls (w : World) (i : nat) (rows : list Recipient) : list Call :=
  match rows with
  | [] => []
  | row :: rest => call_generate (card_path w i) row :: generate_calls w (S i) rest
  end.

(** ** The checks before the first record *)

(** The three checks that abort the batch all pass, and the workbook
    has a first sheet [ws]. *)
Definition passes_checks (w : World) (filePath : jsstring) (ws : Worksheet) : Prop :=
  readFile w filePath = Ok (Some ws)
  ∧ existsSync w (template_path w) = true
  ∧ truthy (EMAIL w) = true
  ∧ truthy (APP_PASSWORD w) = true
  ∧ mailer_fault w = None.

Definition the_transporter (w : World) : Transporter :=
  mkTransporter (lit "gmail") (default [] (EMAIL w)) (default [] (APP_PASSWORD w)).

(** The first progress message of a batch of [n] records. *)
Definition first_update (n : nat) : Event :=
  progress {| spread := mkResults n 0 0 []; processing := true; currentIndex := None |}.

(** The completion message. *)
Definition last_update (r : Results) : Event :=
  complete {| spread := r; processing := false; currentIndex := None |}.

(** ** Reading events *)

Definition is_progress (e : Event) : bool :=
  match e with progress _ => true | _ => false end.

Definition is_complete (e : Event) : bool :=
  match e with complete _ => true | _ => false end.

Definition is_error (e : Event) : bool :=
  match e with error _ => true | _ => false end.

Definition is_generate (c : Call) : bool :=
  match c with call_generate _ _ => true | _ => false end.


(** What every progress message of the loop carries, when the loop is
    entered at index [i] with [i] records counted. *)
Definition counted (n lo hi : nat) (e : Event) : Prop :=
  ∃ d c, e = progress d
         ∧ processing d = true
         ∧ currentIndex d = Some c
         ∧ success (spread d) + failed (spread d) = c
         ∧ lo < c ≤ hi
         ∧ total (spread d) = n
         ∧ length (errors (spread d)) = failed (spread d).

(** ** The properties of the event stream, as the specification words them *)

(** At every progress message the two counters add up to
    [currentIndex], which does not exceed [total]; at the completion
    message they add up to [total].  A message without [currentIndex] is
    read as the client reads it, [currentIndex || 0]. *)
Definition counters_as_stated (evs : list Event) : Prop :=
  (∀ d, progress d ∈ evs →
        success (spread d) + failed (spread d) = default 0 (currentIndex d)
        ∧ default 0 (currentIndex d) ≤ total (spread d))
  ∧ (∀ d, complete d ∈ evs →
          success (spread d) + failed (spread d) = total (spread d)).

(** ** Rows, as the specification words them *)

(** A text is blank when it holds nothing but whitespace. *)
Definition nonblank (s : jsstring) : bool :=
  existsb (λ c, negb (is_space c)) s.

(** What a cell shows: the text of a hyperlink, the result of a
    formula, the fragments of a rich text put together, the code of an
    error, and for the other values their text. *)
Definition shown_text (v : CellValue) : option jsstring :=
  match v with
  | VNull => None
  | VString s => Some s
  | VNumber shown => Some shown
  | VBoolean b => Some (lit (if b then "true" else "false"))
  | VDate shown => Some shown
  | VHyperlink text _ => Some text
  | VFormula _ result => result
  | VRichText texts => Some (concat texts)
  | VError code => Some code
  end.

(** A cell is present and not blank. *)
Definition present_nonblank (v : CellValue) : bool :=
  match shown_text v with
  | Some s => nonblank s
  | None => false
  end.

(** The first three cells of a row are present and not blank. *)
Definition complete_row (row : Row) : bool :=
  present_nonblank (getCell row 1)
  && present_nonblank (getCell row 2)
  && present_nonblank (getCell row 3).

(** The test of line 174 on a row: the three trimmed texts read from
    it are truthy. *)
Definition accepted (row : Row) : bool :=
  truthy (cell_text row 1) && truthy (cell_text row 2) && truthy (cell_text row 3).

(** A cell that holds no object, and a row whose first three cells hold
    none. *)
Definition plain (v : CellValue) : bool :=
  match v with
  | VNull | VString _ | VNumber _ | VBoolean _ | VDate _ => true
  | VHyperlink _ _ | VFormula _ _ | VRichText _ | VError _ => false
  end.

Definition plain_row (row : Row) : bool :=
  plain (getCell row 1) && plain (getCell row 2) && plain (getCell row 3).

(** The record made of the trimmed texts of the first three cells. *)
Definition record_of (row : Row) : Recipient :=
  mkRecipient (default [] (cell_text row 1)) (default [] (cell_text row 2))
              (default [] (cell_text row 3)).

(** ** Whitespace runs, as the specification words them *)

(** A text cut into its maximal runs of whitespace and of other code
    units, each tagged with its kind. *)
Fixpoint runs (s : jsstring) : list (bool * jsstring) :=
  match s with
  | [] => []
  | c :: s' =>
      match runs s' with
      | (b, blk) :: rest =>
          if Bool.eqb b (is_space c) then (b, c :: blk) :: rest
          else (is_space c, [c]) :: (b, blk) :: rest
      | [] => [(is_space c, [c])]
      end
  end.

(** Each whitespace run replaced by one hyphen, the rest kept. *)
Definition hyphenate (g : list (bool * jsstring)) : jsstring :=
  concat (List.map (λ '(b, blk), if (b : bool) then [hyphen] else blk) g).

(** The runs left once a whitespace run at the front is consumed. *)
Definition after_run (g : list (bool * jsstring)) : list (bool * jsstring) :=
  match g with
  | (true, _) :: rest => rest
  | _ => g
  end.

(** ** Counters and the error list *)

Definition errors_match (r : Results) : Prop := length (errors r) = failed r.

Definition event_errors_match (e : Event) : Prop :=
  match e with
  | progress d | complete d => errors_match (spread d)
  | error _ => True
  end.

(** The same server reading another first sheet. *)
Definition with_sheet (w : World) (ws : Worksheet) : World :=
  mkWorld (dirname w) (EMAIL w) (APP_PASSWORD w) (λ _, Ok (Some ws))
          (existsSync w) (mailer_fault w) (loadImage w) (canvas_fault w)
          (sendMail_fault w) (unlink_fault w) (update_fault w).

(** ** A concrete installation *)

Definition bounce : jsstring := lit "Mailbox unavailable".

(** A server whose workbook reads as [sheet], whose template is present
    or not, and whose transport rejects the addresses in [bounces]. *)
Definition office (sheet : Res (option Worksheet)) (template : bool)
    (bounces : list jsstring) : World :=
  {| dirname := lit "/srv/mail";
     EMAIL := Some (lit "sender@example.com");
     APP_PASSWORD := Some (lit "app-password");
     readFile := λ _, sheet;
     existsSync := λ _, template;
     mailer_fault := None;
     loadImage := λ _, Ok (mkImage 1080 1350 (lit "template.png"));
     canvas_fault := λ _ _, None;
     sendMail_fault := λ m, if bool_decide (to m ∈ bounces) then Some bounce else None;
     unlink_fault := λ _, None;
     update_fault := λ _, None |}.

Definition ann : Row :=
  [VString (lit "Ann Lee"); VNumber (lit "5550101"); VString (lit "ann@example.com")].
Definition bob : Row :=
  [VString (lit " Bob Ray "); VNumber (lit "5550102"); VString (lit "bob@example.com")].
Definition cy : Row :=
  [VString (lit "Cy Poe"); VNumber (lit "5550103"); VString (lit "   ")].
Definition dee : Row :=
  [VString (lit "Dee Fox"); VNumber (lit "5550104"); VString (lit "dee@example.com")].

(** A header, three complete rows and one row whose email is blank. *)
Definition roster : Worksheet :=
  [(1, [VString (lit "Name"); VString (lit "Phone"); VString (lit "Email")]);
   (2, ann); (3, bob); (4, cy); (5, dee)].

(** Three records; the transport rejects the second one. *)
Definition campaign : World :=
  office (Ok (Some roster)) true [lit "bob@example.com"].

Definition upload : jsstring := lit "/srv/mail/uploads/1700000000000-roster.xlsx".

(** A row whose email cell is a formula that shows nothing. *)
Definition eve : Row :=
  [VString (lit "Eve Poe"); VNumber (lit "5550105");
   VFormula (lit "IF(B2>0,C1,C1)") (Some [])].

Definition busy : jsstring := lit "EBUSY: resource busy or locked, unlink".


(** The same three records, all mailed; the card of the second one
    cannot be unlinked. *)
Definition busy_disk : World :=
  {| dirname := lit "/srv/mail";
     EMAIL := Some (lit "sender@example.com");
     APP_PASSWORD := Some (lit "app-password");
     readFile := λ _, Ok (Some roster);
     existsSync := λ _, true;
     mailer_fault := None;
     loadImage := λ _, Ok (mkImage 1080 1350 (lit "template.png"));
     canvas_fault := λ _ _, None;
     sendMail_fault := λ _, None;
     unlink_fault := λ p,
       if bool_decide (p = lit "/srv/mail/generated/card-2.png") then Some busy else None;
     update_fault := λ _, None |}.

(** ** The files and the calls of a run *)

(** The calls one turn of the loop makes for record [i]. *)
Definition turn_calls (w : World) (i : nat) (row : Recipient) : list Call :=
  call_generate (card_path w i) row
  :: match render_fault w i row with
     | Some _ => []
     | None =>
         call_sendMail (mail_for w row (card_path w i))
         :: match send_fault w i row with
            | Some _ => []
            | None => [call_unlink (card_path w i)]
            end
     end.

(** The [generated] directory after the turn of record [i]. *)
Definition turn_disk (w : World) (i : nat) (row : Recipient)
    (d : gmap jsstring Png) : gmap jsstring Png :=
  match loadImage w (template_path w) with
  | Throw _ => d
  | Ok img =>
      match canvas_fault w (card_path w i) row with
      | Some _ => d
      | None =>
          match send_fault w i row, unlink_fault w (card_path w i) with
          | None, None =>
              delete (card_path w i) (<[card_path w i := toBuffer (paint img row)]> d)
          | _, _ => <[card_path w i := toBuffer (paint img row)]> d
          end
      end
  end.

Fixpoint calls (w : World) (i : nat) (rows : list Recipient) : list Call :=
  match rows with
  | [] => []
  | row :: rest => turn_calls w i row ++ calls w (S i) rest
  end.

Fixpoint disk_after (w : World) (i : nat) (rows : list Recipient)
    (d : gmap jsstring Png) : gmap jsstring Png :=
  match rows with
  | [] => d
  | row :: rest => disk_after w (S i) rest (turn_disk w i row d)
  end.

(** The [currentIndex] a progress message carries, if it is one that
    carries it. *)
Definition index_of (e : Event) : option nat :=
  match e with
  | progress d => currentIndex d
  | _ => None
  end.

(** The positions, counted from 1, of the records whose turn ends
    without an error. *)
Fixpoint reported_positions (w : World) (i : nat) (rows : list Recipient) : list nat :=
  match rows with
  | [] => []
  | row :: rest =>
      match verdict w i row with
      | Some _ => reported_positions w (S i) rest
      | None => (i + 1) :: reported_positions w (S i) rest
      end
  end.

Definition is_sendMail (c : Call) : bool :=
  match c with call_sendMail _ => true | _ => false end.

Definition is_unlink (c : Call) : bool :=
  match c with call_unlink _ => true | _ => false end.

(** The mails handed to the transport for the records [rows]. *)
Fixpoint mails (w : World) (i : nat) (rows : list Recipient) : list Call :=
  match rows with
  | [] => []
  | row :: rest =>
      match render_fault w i row with
      | Some _ => mails w (S i) rest
      | None => call_sendMail (mail_for w row (card_path w i)) :: mails w (S i) rest
      end
  end.


(** A sheet that holds a header and nothing else. *)
Definition header_only : Worksheet :=
  [(1, [VString (lit "Name"); VString (lit "Phone"); VString (lit "Email")])].

(** ** Trimmed texts *)

(** A text that is not empty and neither starts nor ends with
    whitespace. *)
Definition trimmed (s : jsstring) : bool :=
  match s with
  | [] => false
  | c :: _ => negb (is_space c) && negb (is_space (List.last s c))
  end.

(** ** The health route *)

(** [a && b] on values that are strings or [undefined]. *)
Definition js_and (a b : option jsstring) : option jsstring :=
  if truthy a then b else a.

(** The body of the answer of [GET /api/health]. *)
Record Health := mkHealth {
  status : jsstring;
  timestamp : jsstring;
  emailConfigured : bool
}.

(** The handler, given the text of [new Date().toISOString()]. *)
Definition health (w : World) (now_iso : jsstring) : Health :=
  {| status := lit "OK";
     timestamp := now_iso;
     emailConfigured := negb (negb (truthy (js_and (EMAIL w) (APP_PASSWORD w)))) |}.

(** ** The upload store *)

Definition xlsx_mimetype : jsstring :=
  lit "application/vnd.openxmlformats-officedocument.spreadsheetml.sheet".

(** The [filename] callback of the disk storage, given [Date.now()]. *)
Definition storage_filename (now : nat) (originalname : jsstring) : jsstring :=
  of_nat now ++ lit "-" ++ originalname.

(** [fileFilter]: what it passes to [cb], an error or the verdict. *)
Definition fileFilter (mimetype : jsstring) : Res bool :=
  if decide (mimetype = xlsx_mimetype) then Ok true
  else Throw (lit "Only .xlsx files are allowed!").

(** [ensureDirectories], on the set of the directories that exist. *)
Definition ensureDirectories (dirname : jsstring) (present : gset jsstring)
  : gset jsstring :=
  foldl (λ fs dir,
           let dirPath := path_join [dirname; dir] in
           if bool_decide (dirPath ∈ fs) then fs else {[dirPath]} ∪ fs)
        present [lit "uploads"; lit "generated"; lit "assets"].

(** ** The client *)

Module App.

(** [interface ProcessingStatus] *)
Record ProcessingStatus := mkStatus {
  total : nat;
  success : nat;
  failed : nat;
  processing : bool;
  currentIndex : option nat;
  errors : option (list jsstring)
}.

(** What the handlers read of a [File]. *)
Record File := mkFile {
  file_name : jsstring;
  type : jsstring
}.

(** The state cells the handlers below write. *)
Record State := mkState {
  file : option File;
  dragActive : bool
}.

(** [handleDrop] after a drop of [files]: the new state and the alert
    shown, if any. *)
Definition handleDrop (files : list File) (st : State) : State * option jsstring :=
  let st := mkState (file st) false in
  match files with
  | droppedFile :: _ =>
      if decide (type droppedFile
                 = lit "application/vnd.openxmlformats-officedocument.spreadsheetml.sheet")
      then (mkState (Some droppedFile) (dragActive st), None)
      else (st, Some (lit "Please upload only .xlsx files"))
  | [] => (st, None)
  end.

(** [handleFileSelect] *)
Definition handleFileSelect (files : list File) (st : State) : State :=
  match files with
  | f :: _ => mkState (Some f) (dragActive st)
  | [] => st
  end.

Definition mockData : list Recipient :=
  [ mkRecipient (lit "John Doe") (lit "9876543210") (lit "john@example.com");
    mkRecipient (lit "Jane Smith") (lit "9876543211") (lit "jane@example.com");
    mkRecipient (lit "Bob Johnson") (lit "9876543212") (lit "bob@example.com");
    mkRecipient (lit "Alice Brown") (lit "9876543213") (lit "alice@example.com");
    mkRecipient (lit "Charlie Davis") (lit "9876543214") (lit "charlie@example.com") ].

(** The updater passed to [setStatus] in the loop at index [i], where
    [lucky] is the outcome of [Math.random() > 0.2]. *)
Definition step (lucky : bool) (i : nat) (prev : ProcessingStatus) : ProcessingStatus :=
  {| total := total prev;
     success := success prev + (if lucky then 1 else 0);
     failed := failed prev + (if lucky then 0 else 1);
     processing := processing prev;
     currentIndex := Some (i + 1);
     errors := errors prev |}.

(** The values [status] takes during the loop over [data], started at
    index [i] from [prev]; [draws i] is the outcome of the comparison at
    index [i]. *)
Fixpoint simulate (draws : nat → bool) (i : nat) (data : list Recipient)
    (prev : ProcessingStatus) : list ProcessingStatus :=
  match data with
  | [] => []
  | _ :: rest =>
      let next := step (draws i) i prev in
      next :: simulate draws (S i) rest next
  end.

(** The values [status] takes during [handleProcess], in order. *)
Definition handleProcess (draws : nat → bool) : list ProcessingStatus :=
  let s0 := mkStatus 0 0 0 true None None in
  let s1 := mkStatus (length mockData) 0 0 true None None in
  let during := simulate draws 0 mockData s1 in
  let prev := List.last during s1 in
  [s0; s1] ++ during
  ++ [ {| total := total prev; success := success prev; failed := failed prev;
          processing := false; currentIndex := currentIndex prev;
          errors := errors prev |} ].

End App.


(** ** The upload and process routes *)

Module Multer.


(** [req.file] once the file is stored. *)
Record File := mkFile {
  filename : jsstring;
  path : jsstring
}.

End Multer.






(** The extractor, as the specification words it: keep, in order, the
    complete rows after the first. *)
Definition complete_rows (ws : Worksheet) : list Recipient :=
  omap (λ '(n, row), if (1 <? n) && complete_row row then Some (record_of row) else None) ws.
(** ** Evaluating the monad *)

Ltac unfold_m :=
  unfold try_catch, mbind, M_bind, mret, M_ret, throw, lift, record_call,
    writeFileSync, set_results, get_results, send_update, ws_send.

Ltac run :=
  unfold process_row, generatePersonalizedImage, sendEmail, transporter_sendMail,
    unlinkSync; unfold_m; simpl.

(** ** One turn of the loop *)

Lemma mailed_verdict (w : World) (i : nat) (row : Recipient) :
  verdict w i row = None → mailed w i row = true.
Proof.
  unfold verdict, mailed.
  by destruct (render_fault w i row), (send_fault w i row).
Qed.

Lemma verdict_of_failure (w : World) (i : nat) (row : Recipient) (e : jsstring) :
  render_fault w i row = Some e
  ∨ render_fault w i row = None ∧ send_fault w i row = Some e →
  verdict w i row = Some e ∧ mailed w i row = false.
Proof. unfold verdict, mailed. by intros [->|[-> ->]]. Qed.

Section Step.
Context (w : World) (transporter : Transporter) (i : nat) (row : Recipient).

#[local] Abbreviation out := (card_path w i).

(** What one turn of the loop does, whatever the outcome; it never
    throws. *)
Lemma process_row_exact (s : Sys) :
  process_row w transporter (template_path w) i row s
  = (mkSys (turn_results w i row (results s))
           (turn_disk w i row (disk s))
           (wire s ++ turn_update w i row (results s))
           (trace s ++ turn_calls w i row), Ok tt).
Proof.
  unfold turn_results, turn_disk, turn_update, turn_calls, verdict, mailed,
    late_fault, render_fault, send_fault.
  run.
  destruct (loadImage w (template_path w)) as [img|e0]; simpl;
    [|by rewrite app_nil_r].
  destruct (canvas_fault w out row) as [e1|]; simpl; [by rewrite app_nil_r|].
  destruct (sendMail_fault w (mail_for w row out)) as [e2|]; simpl;
    [by rewrite app_nil_r, <- !app_assoc|].
  destruct (unlink_fault w out) as [e3|]; simpl;
    [by rewrite app_nil_r, <- !app_assoc|].
  rewrite lookup_insert_eq. simpl.
  destruct (update_fault w i) as [e4|]; simpl;
    by rewrite ?app_nil_r, <- !app_assoc.
Qed.

Lemma turn_calls_generate :
  ∃ tr, turn_calls w i row = call_generate out row :: tr
        ∧ List.filter is_generate tr = [].
Proof.
  unfold turn_calls. eexists. split; [reflexivity|].
  by destruct (render_fault w i row), (send_fault w i row).
Qed.

Lemma turn_results_failure (e : jsstring) (r : Results) :
  render_fault w i row = Some e
  ∨ render_fault w i row = None ∧ send_fault w i row = Some e →
  turn_results w i row r = fail_with row e r.
Proof.
  intros [Hv Hm]%verdict_of_failure. unfold turn_results. by rewrite Hv, Hm.
Qed.
End Step.

(** ** The loop *)

Section Loop.
Context (w : World) (transporter : Transporter).

#[local] Abbreviation tp := (template_path w).

Lemma process_row_ok (i : nat) (row : Recipient) (s : Sys) :
  (process_row w transporter tp i row s).2 = Ok tt.
Proof. by rewrite process_row_exact. Qed.

Lemma for_rows_cons (i : nat) (row : Recipient) (rest : list Recipient) (s : Sys) :
  for_rows w transporter tp i (row :: rest) s
  = for_rows w transporter tp (S i) rest (process_row w transporter tp i row s).1.
Proof.
  simpl. unfold mbind at 1, M_bind at 1.
  pose proof (process_row_ok i row s) as H.
  destruct (process_row w transporter tp i row s) as [s' r]. simpl in *.
  by subst r.
Qed.

(** The loop as the pure functions [tally], [disk_after], [updates] and
    [calls] describe it; it runs to the end without throwing. *)
Lemma for_rows_exact (rows : list Recipient) : ∀ (i : nat) (s : Sys),
  for_rows w transporter tp i rows s
  = (mkSys (tally w i rows (results s)) (disk_after w i rows (disk s))
           (wire s ++ updates w i rows (results s))
           (trace s ++ calls w i rows), Ok tt).
Proof.
  induction rows as [|row rest IH]; intros i s.
  - simpl. rewrite !app_nil_r. by destruct s.
  - rewrite for_rows_cons, process_row_exact. cbn [fst]. rewrite IH.
    cbn [results disk wire trace tally disk_after updates calls].
    by rewrite <- !app_assoc.
Qed.

Lemma calls_generate (rows : list Recipient) : ∀ i : nat,
  List.filter is_generate (calls w i rows) = generate_calls w i rows.
Proof.
  induction rows as [|row rest IH]; intros i; simpl; [done|].
  rewrite List.filter_app, IH. f_equal. unfold turn_calls.
  by destruct (render_fault w i row), (send_fault w i row).
Qed.

Lemma for_rows_summary (rows : list Recipient) : ∀ (i : nat) (s : Sys),
  ∃ d tr,
    for_rows w transporter tp i rows s
    = (mkSys (tally w i rows (results s)) d
             (wire s ++ updates w i rows (results s))
             (trace s ++ tr), Ok tt)
    ∧ List.filter is_generate tr = generate_calls w i rows.
Proof.
  intros i s. exists (disk_after w i rows (disk s)), (calls w i rows).
  split; [apply for_rows_exact | apply calls_generate].
Qed.
End Loop.

(** ** The pure summaries *)

Lemma tally_eq (w : World) (rows : list Recipient) : ∀ (i : nat) (r : Results),
  tally w i rows r
  = mkResults (total r) (success r + deliveries w i rows)
              (failed r + length (entries w i rows))
              (errors r ++ entries w i rows).
Proof.
  induction rows as [|row rest IH]; intros i r; simpl.
  - rewrite !Nat.add_0_r, app_nil_r. by destruct r.
  - rewrite IH. unfold turn_results.
    destruct (mailed w i row), (verdict w i row); simpl;
      f_equal; rewrite <- ?app_assoc; simpl; try done; lia.
Qed.

(** Every record is mailed or has an entry, and those that are mailed
    and have an entry are the ones counted twice. *)
Lemma counts_sum (w : World) (rows : list Recipient) : ∀ i : nat,
  deliveries w i rows + length (entries w i rows) = length rows + recounts w i rows.
Proof.
  induction rows as [|row rest IH]; intros i; simpl; [done|].
  specialize (IH (S i)). unfold verdict, mailed.
  destruct (render_fault w i row), (send_fault w i row), (late_fault w i);
    simpl; lia.
Qed.


Lemma recounts_none (w : World) (rows : list Recipient) : ∀ i : nat,
  (∀ j, late_fault w j = None) → recounts w i rows = 0.
Proof.
  intros i H. revert i. induction rows as [|row rest IH]; intros i; simpl; [done|].
  rewrite IH, H. by destruct (mailed w i row).
Qed.

Lemma updates_length (w : World) (rows : list Recipient) : ∀ (i : nat) (r : Results),
  length (updates w i rows r) + length (entries w i rows) = length rows.
Proof.
  induction rows as [|row rest IH]; intros i r; simpl; [done|].
  rewrite !length_app. specialize (IH (S i) (turn_results w i row r)).
  unfold turn_update. destruct (verdict w i row); simpl; lia.
Qed.

Lemma updates_progress (w : World) (rows : list Recipient) : ∀ (i : nat) (r : Results),
  forallb is_progress (updates w i rows r) = true.
Proof.
  induction rows as [|row rest IH]; intros i r; simpl; [done|].
  rewrite forallb_app, IH. unfold turn_update. by destruct (verdict w i row).
Qed.

Lemma turn_results_errors_match (w : World) (i : nat) (row : Recipient) (r : Results) :
  errors_match r → errors_match (turn_results w i row r).
Proof.
  unfold errors_match, turn_results. intros H.
  destruct (mailed w i row), (verdict w i row); simpl; rewrite ?length_app; simpl; lia.
Qed.

Lemma updates_errors_match (w : World) (rows : list Recipient) :
  ∀ (i : nat) (r : Results),
    errors_match r → Forall event_errors_match (updates w i rows r).
Proof.
  induction rows as [|row rest IH]; intros i r H; simpl; [constructor|].
  apply Forall_app. split.
  - unfold turn_update. destruct (verdict w i row); repeat constructor. exact H.
  - apply IH. by apply turn_results_errors_match.
Qed.

(** When neither the clean-up nor a progress message throws, every
    progress message of the loop carries the index its counters add up
    to. *)
Lemma updates_counted (w : World) (rows : list Recipient) :
  (∀ j, late_fault w j = None) →
  ∀ (i : nat) (r : Results),
    success r + failed r = i →
    length (errors r) = failed r →
    Forall (counted (total r) i (i + length rows)) (updates w i rows r).
Proof.
  intros Hlate.
  induction rows as [|row rest IH]; intros i r Hi He; simpl; [constructor|].
  assert (Hmono : ∀ e, counted (total r) (S i) (S i + length rest) e
                       → counted (total r) i (i + S (length rest)) e).
  { intros e (d & c & ? & ? & ? & ? & ? & ?). exists d, c. repeat split; try done; lia. }
  assert (Hnext : success (turn_results w i row r) + failed (turn_results w i row r) = S i
                  ∧ length (errors (turn_results w i row r))
                    = failed (turn_results w i row r)
                  ∧ total (turn_results w i row r) = total r).
  { unfold turn_results, verdict, mailed. rewrite Hlate.
    destruct (render_fault w i row), (send_fault w i row); simpl;
      rewrite ?length_app; simpl; repeat split; lia. }
  destruct Hnext as (Hs & Hl & Ht).
  apply Forall_app. split.
  - unfold turn_update. destruct (verdict w i row); [constructor|].
    repeat constructor. eexists _, (i + 1). repeat split; simpl; try done; lia.
  - eapply Forall_impl; [|exact Hmono]. rewrite <- Ht. by apply IH.
Qed.

(** ** The run *)

Lemma createTransporter_passes (w : World) (s : Sys) :
  truthy (EMAIL w) = true → truthy (APP_PASSWORD w) = true → mailer_fault w = None →
  createTransporter w s = (s, Ok (the_transporter w)).
Proof.
  intros He Hp Hm. unfold createTransporter. rewrite He, Hp, Hm. reflexivity.
Qed.

(** A run that passes the checks, in full. *)
Lemma run_exact (w : World) (filePath : jsstring) (ws : Worksheet) (s : Sys) :
  passes_checks w filePath ws →
  processExcelFile w filePath s
  = (mkSys (tally w 0 (extract_rows ws) (mkResults (length (extract_rows ws)) 0 0 []))
           (disk_after w 0 (extract_rows ws) (disk s))
           (wire s ++ first_update (length (extract_rows ws))
                   :: updates w 0 (extract_rows ws)
                        (mkResults (length (extract_rows ws)) 0 0 [])
                   ++ [last_update (tally w 0 (extract_rows ws)
                                      (mkResults (length (extract_rows ws)) 0 0 []))])
           (trace s ++ calls w 0 (extract_rows ws)),
     Ok (tally w 0 (extract_rows ws) (mkResults (length (extract_rows ws)) 0 0 []))).
Proof.
  intros (Hread & Hex & He & Hp & Hm).
  unfold processExcelFile. unfold_m. rewrite Hread, Hex. simpl.
  rewrite (createTransporter_passes w s He Hp Hm). simpl.
  rewrite for_rows_exact. simpl. unfold first_update, last_update.
  by rewrite <- !app_assoc.
Qed.

Lemma run_passes (w : World) (filePath : jsstring) (ws : Worksheet) (s : Sys) :
  passes_checks w filePath ws →
  let rows := extract_rows ws in
  let r0 := mkResults (length rows) 0 0 [] in
  let r := tally w 0 rows r0 in
  ∃ d tr,
    processExcelFile w filePath s
    = (mkSys r d (wire s ++ first_update (length rows) :: updates w 0 rows r0 ++ [last_update r])
             (trace s ++ tr), Ok r)
    ∧ List.filter is_generate tr = generate_calls w 0 rows.
Proof.
  intros Hp rows r0 r. rewrite (run_exact w filePath ws s Hp).
  exists (disk_after w 0 rows (disk s)), (calls w 0 rows).
  split; [reflexivity | apply calls_generate].
Qed.

(** ** Counters at the progress messages *)

Lemma campaign_passes : passes_checks campaign upload roster.
Proof. by repeat split. Qed.

(** When neither the clean-up nor a progress message throws, the
    counters of a run are as the specification words them. *)
Lemma counters_hold_without_late_faults (w : World) (filePath : jsstring)
    (ws : Worksheet) (files : gmap jsstring Png) :
  passes_checks w filePath ws →
  (∀ j, late_fault w j = None) →
  counters_as_stated (wire (processExcelFile w filePath (fresh files)).1).
Proof.
  intros Hp Hlate. rewrite (run_exact w filePath ws (fresh files) Hp).
  cbn [fst wire fresh app].
  set (rows := extract_rows ws). set (r0 := mkResults (length rows) 0 0 []).
  pose proof (updates_counted w rows Hlate 0 r0 eq_refl eq_refl) as Hall.
  split.
  - intros d [Hd|Hd]%elem_of_cons.
    + unfold first_update in Hd. simplify_eq. simpl. lia.
    + apply elem_of_app in Hd as [Hd|Hd].
      * rewrite Forall_forall in Hall.
        destruct (Hall _ Hd) as (d' & c & Heq & _ & Hc & Hsum & Hle & Ht & _).
        simplify_eq. rewrite Hc. simpl. subst r0. simpl in *. lia.
      * apply list_elem_of_singleton in Hd. discriminate Hd.
  - intros d [Hd|Hd]%elem_of_cons; [discriminate Hd|].
    apply elem_of_app in Hd as [Hd|Hd].
    + pose proof (updates_progress w rows 0 r0) as Hprog.
      rewrite forallb_forall in Hprog.
      apply list_elem_of_In, Hprog in Hd. discriminate Hd.
    + apply list_elem_of_singleton in Hd. unfold last_update in Hd. simplify_eq.
      rewrite tally_eq. simpl.
      pose proof (counts_sum w rows 0) as Hsum.
      rewrite (recounts_none w rows 0 Hlate) in Hsum. lia.
Qed.

(** C1, the code at a failing input: three records, all mailed; the
    card of the second one cannot be unlinked.  [fs.unlinkSync] throws
    after [results.success++], inside the same [try], so the record is
    counted in [success] and in [failed]: the next progress message has
    [currentIndex] 3 with counters that add up to 4, and the completion
    message has counters that add up to 4 for a total of 3. *)
Theorem cleanup_failure_counts_twice :
  passes_checks busy_disk upload roster
  ∧ wire (processExcelFile busy_disk upload (fresh ∅)).1
    = [ first_update 3;
        progress {| spread := mkResults 3 1 0 []; processing := true;
                    currentIndex := Some 1 |};
        progress {| spread := mkResults 3 3 1
                                [lit "Bob Ray: EBUSY: resource busy or locked, unlink"];
                    processing := true; currentIndex := Some 3 |};
        last_update (mkResults 3 3 1
                       [lit "Bob Ray: EBUSY: resource busy or locked, unlink"]) ]
  ∧ ¬ counters_as_stated (wire (processExcelFile busy_disk upload (fresh ∅)).1).
Proof.
  assert (Hw : wire (processExcelFile busy_disk upload (fresh ∅)).1
               = [ first_update 3;
                   progress {| spread := mkResults 3 1 0 []; processing := true;
                               currentIndex := Some 1 |};
                   progress {| spread := mkResults 3 3 1
                                 [lit "Bob Ray: EBUSY: resource busy or locked, unlink"];
                               processing := true; currentIndex := Some 3 |};
                   last_update (mkResults 3 3 1
                     [lit "Bob Ray: EBUSY: resource busy or locked, unlink"]) ]).
  { vm_compute. reflexivity. }
  split; [repeat split; reflexivity|]. split; [exact Hw|].
  rewrite Hw. clear Hw. intros [_ H].
  specialize (H {| spread := mkResults 3 3 1
                     [lit "Bob Ray: EBUSY: resource busy or locked, unlink"];
                   processing := false; currentIndex := None |}).
  assert (Hin : complete {| spread := mkResults 3 3 1
                     [lit "Bob Ray: EBUSY: resource busy or locked, unlink"];
                   processing := false; currentIndex := None |}
                ∈ [ first_update 3;
                   progress {| spread := mkResults 3 1 0 []; processing := true;
                               currentIndex := Some 1 |};
                   progress {| spread := mkResults 3 3 1
                                 [lit "Bob Ray: EBUSY: resource busy or locked, unlink"];
                               processing := true; currentIndex := Some 3 |};
                   last_update (mkResults 3 3 1
                     [lit "Bob Ray: EBUSY: resource busy or locked, unlink"]) ]).
  { right. right. right. left. }
  specialize (H Hin). simpl in H. discriminate H.
Qed.

(** ** Progress messages and failed records *)

(** The loop writes one progress message per record whose turn ends
    without an error, and none for a record that fails. *)
Lemma updates_follow_deliveries (w : World) (filePath : jsstring) (ws : Worksheet)
    (files : gmap jsstring Png) :
  passes_checks w filePath ws →
  ∃ s r,
    processExcelFile w filePath (fresh files) = (s, Ok r)
    ∧ length (List.filter is_progress (wire s)) + failed r
      = 1 + length (extract_rows ws)
    ∧ length (List.filter is_complete (wire s)) = 1.
Proof.
  intros Hp. rewrite (run_exact w filePath ws (fresh files) Hp).
  eexists _, _. split; [reflexivity|]. cbn [wire fresh app].
  set (rows := extract_rows ws). set (r0 := mkResults (length rows) 0 0 []).
  assert (Hc : ∀ evs, forallb is_progress evs = true →
                      List.filter is_progress evs = evs
                      ∧ List.filter is_complete evs = []).
  { induction evs as [|[ | | ] evs IH]; simpl; intros H; try done.
    destruct (IH H) as [-> ->]. done. }
  destruct (Hc _ (updates_progress w rows 0 r0)) as [Hprog Hcomp].
  unfold first_update, last_update. cbn [List.filter is_progress is_complete].
  rewrite !List.filter_app, Hprog, Hcomp. cbn [List.filter is_progress is_complete].
  rewrite app_nil_r, tally_eq. cbn [length app success failed].
  pose proof (updates_length w rows 0 r0). subst r0. cbn [failed]. split; [lia|done].
Qed.

(** C2, the code at a failing input: three records, the second one
    bounces.  The run writes three progress messages, not four: none
    follows the failed record (no message has [currentIndex] 2). *)
Theorem failed_record_sends_no_update :
  length (extract_rows roster) = 3
  ∧ wire (processExcelFile campaign upload (fresh ∅)).1
    = [ first_update 3;
        progress {| spread := mkResults 3 1 0 []; processing := true;
                    currentIndex := Some 1 |};
        progress {| spread := mkResults 3 2 1 [lit "Bob Ray: Mailbox unavailable"];
                    processing := true; currentIndex := Some 3 |};
        last_update (mkResults 3 2 1 [lit "Bob Ray: Mailbox unavailable"]) ]
  ∧ length (List.filter is_progress
              (wire (processExcelFile campaign upload (fresh ∅)).1)) = 3.
Proof. by vm_compute. Qed.

(** ** The generated file *)

(** C4, the code at a failing input: three records, the second one
    bounces.  After the run the second card is still in the [generated]
    directory, and it was never unlinked; the cards of the two mailed
    records are gone. *)
Theorem bounced_card_stays_on_disk :
  (map_to_list (disk (processExcelFile campaign upload (fresh ∅)).1)).*1
  = [lit "/srv/mail/generated/card-2.png"]
  ∧ card_path campaign 1 = lit "/srv/mail/generated/card-2.png"
  ∧ List.filter (λ c, match c with call_unlink _ => true | _ => false end)
      (trace (processExcelFile campaign upload (fresh ∅)).1)
    = [call_unlink (lit "/srv/mail/generated/card-1.png");
       call_unlink (lit "/srv/mail/generated/card-3.png")].
Proof. by vm_compute. Qed.

(** A record whose mail is rejected, or whose card cannot be unlinked,
    leaves its card on disk at the end of its turn of the loop; any other
    record that is rendered does not. *)
Lemma card_after_turn (w : World) (t : Transporter) (i : nat) (row : Recipient)
    (s : Sys) (img : Image) :
  loadImage w (template_path w) = Ok img →
  canvas_fault w (card_path w i) row = None →
  disk (process_row w t (template_path w) i row s).1 !! card_path w i
  = match send_fault w i row, unlink_fault w (card_path w i) with
    | None, None => None
    | _, _ => Some (toBuffer (paint img row))
    end.
Proof.
  intros Hl Hc. rewrite process_row_exact. cbn [fst disk]. unfold turn_disk.
  rewrite Hl, Hc.
  destruct (send_fault w i row), (unlink_fault w (card_path w i));
    by rewrite ?lookup_delete_eq, ?lookup_insert_eq.
Qed.

(** ** Checks that abort the batch *)

(** C5: when the workbook cannot be read, the template image is missing
    or a mail credential is not set, the run writes one error message
    and nothing else to the socket, calls neither the renderer nor the
    transport nor the file system for any record, and rethrows. *)
Theorem fatal_check_aborts (w : World) (filePath : jsstring) (s : Sys) :
  (∃ e, readFile w filePath = Throw e)
  ∨ existsSync w (template_path w) = false
  ∨ truthy (EMAIL w) && truthy (APP_PASSWORD w) = false →
  ∃ e,
    processExcelFile w filePath s
    = (mkSys (results s) (disk s) (wire s ++ [error e]) (trace s), Throw e)
    ∧ e = match readFile w filePath with
          | Throw e0 => e0
          | Ok _ => if existsSync w (template_path w)
                    then lit "Email credentials not configured"
                    else lit "Template image not found"
          end.
Proof.
  intros H. unfold processExcelFile. unfold_m.
  destruct (readFile w filePath) as [sheet|e0] eqn:Hread; simpl.
  - destruct (existsSync w (template_path w)) eqn:Hex; simpl.
    + destruct H as [[e He]|[H|H]]; try discriminate.
      unfold createTransporter.
      assert (negb (truthy (EMAIL w)) || negb (truthy (APP_PASSWORD w)) = true) as ->.
      { by destruct (truthy (EMAIL w)), (truthy (APP_PASSWORD w)). }
      eexists. split; reflexivity.
    + eexists. split; reflexivity.
  - eexists. split; reflexivity.
Qed.

Lemma fatal_check_aborts_witness :
  existsSync (office (Ok (Some roster)) false []) (template_path (office (Ok (Some roster)) false []))
  = false
  ∧ processExcelFile (office (Ok (Some roster)) false []) upload (fresh ∅)
    = (mkSys (mkResults 0 0 0 []) ∅ [error (lit "Template image not found")] [],
       Throw (lit "Template image not found")).
Proof.
  split; [reflexivity|].
  destruct (fatal_check_aborts (office (Ok (Some roster)) false []) upload (fresh ∅))
    as (e & -> & ->).
  - right. left. reflexivity.
  - reflexivity.
Defined.

(** ** Failures of single records *)

Lemma entries_app (w : World) (a b : list Recipient) : ∀ i : nat,
  entries w i (a ++ b) = entries w i a ++ entries w (i + length a) b.
Proof.
  induction a as [|row a IH]; intros i; simpl.
  - by rewrite Nat.add_0_r.
  - rewrite IH, <- app_assoc. do 3 f_equal. lia.
Qed.

Lemma deliveries_app (w : World) (a b : list Recipient) : ∀ i : nat,
  deliveries w i (a ++ b) = deliveries w i a + deliveries w (i + length a) b.
Proof.
  induction a as [|row a IH]; intros i; simpl.
  - by rewrite Nat.add_0_r.
  - rewrite IH, Nat.add_assoc. by replace (S i + length a) with (i + S (length a)) by lia.
Qed.

Lemma generate_calls_lookup (w : World) (rows : list Recipient) :
  ∀ (i j : nat) (row : Recipient),
    rows !! j = Some row →
    call_generate (card_path w (i + j)) row ∈ generate_calls w i rows.
Proof.
  induction rows as [|r rest IH]; intros i [|j] row H; simpl in *; try done.
  - simplify_eq. rewrite Nat.add_0_r. left.
  - right. replace (i + S j) with (S i + j) by lia. by apply IH.
Qed.

(** C3: a rendering or delivery failure at record [i] adds one to
    [failed] and appends the entry made of the record's name, a colon and
    the message, without throwing; the run goes on, so the records before
    and after [i] are all handed to the renderer and counted on their own
    outcomes. *)
Theorem failure_is_isolated (w : World) (filePath : jsstring) (ws : Worksheet)
    (files : gmap jsstring Png) (i : nat) (row : Recipient) (e : jsstring) :
  passes_checks w filePath ws →
  extract_rows ws !! i = Some row →
  (render_fault w i row = Some e
   ∨ render_fault w i row = None ∧ send_fault w i row = Some e) →
  let rows := extract_rows ws in
  (∀ t s, ∃ s', process_row w t (template_path w) i row s = (s', Ok tt)
                ∧ results s' = fail_with row e (results s))
  ∧ ∃ s r,
      processExcelFile w filePath (fresh files) = (s, Ok r)
      ∧ errors r = entries w 0 (take i rows) ++ [name row ++ lit ": " ++ e]
                   ++ entries w (S i) (drop (S i) rows)
      ∧ failed r = length (entries w 0 (take i rows)) + 1
                   + length (entries w (S i) (drop (S i) rows))
      ∧ success r = deliveries w 0 (take i rows) + deliveries w (S i) (drop (S i) rows)
      ∧ ∀ j row', rows !! j = Some row' → call_generate (card_path w j) row' ∈ trace s.
Proof.
  intros Hp Hi Hfail rows.
  destruct (verdict_of_failure w i row e Hfail) as [Hv Hm].
  split.
  - intros t s. rewrite process_row_exact. eexists. split; [reflexivity|].
    cbn [results]. by apply turn_results_failure.
  - destruct (run_passes w filePath ws (fresh files) Hp) as (d & tr & -> & Hf).
    fold rows in Hf |- *. eexists _, _. split; [reflexivity|].
    rewrite tally_eq. cbn [errors failed success app].
    assert (Hlen : length (take i rows) = i).
    { apply length_take_le. apply lookup_lt_Some in Hi. fold rows in Hi. lia. }
    assert (Hsplit : rows = take i rows ++ row :: drop (S i) rows).
    { symmetry. by apply take_drop_middle. }
    assert (He : entries w 0 rows
                 = entries w 0 (take i rows) ++ [name row ++ lit ": " ++ e]
                   ++ entries w (S i) (drop (S i) rows)).
    { rewrite Hsplit at 1. rewrite entries_app, Hlen. simpl. by rewrite Hv. }
    assert (Hd : deliveries w 0 rows
                 = deliveries w 0 (take i rows) + deliveries w (S i) (drop (S i) rows)).
    { rewrite Hsplit at 1. rewrite deliveries_app, Hlen. simpl. by rewrite Hm. }
    repeat split.
    + exact He.
    + rewrite He, !length_app. simpl. lia.
    + exact Hd.
    + intros j row' Hj. cbn [trace fresh app].
      assert (Hin : call_generate (card_path w j) row' ∈ List.filter is_generate tr).
      { rewrite Hf. by apply (generate_calls_lookup w rows 0 j). }
      apply list_elem_of_In, List.filter_In in Hin. destruct Hin as [Hin _].
      by apply list_elem_of_In.
Qed.

Lemma failure_is_isolated_witness :
  passes_checks campaign upload roster
  ∧ ∃ s r,
      processExcelFile campaign upload (fresh ∅) = (s, Ok r)
      ∧ success r = 2 ∧ failed r = 1
      ∧ errors r = [lit "Bob Ray: Mailbox unavailable"].
Proof.
  split; [by repeat split|].
  destruct (failure_is_isolated campaign upload roster ∅ 1
              (mkRecipient (lit "Bob Ray") (lit "5550102") (lit "bob@example.com"))
              bounce)
    as (_ & s & r & Hrun & Herr & Hfail & Hsucc & _).
  - by repeat split.
  - reflexivity.
  - right. by vm_compute.
  - exists s, r. split; [exact Hrun|]. rewrite Herr, Hfail, Hsucc.
    clear. vm_compute. repeat split; reflexivity.
Defined.

(** ** Extraction *)

Lemma trimStart_nonblank (s : jsstring) : nonblank (trimStart s) = nonblank s.
Proof.
  induction s as [|c s IH]; simpl; [done|].
  destruct (is_space c) eqn:Hc; simpl; [exact IH | by rewrite Hc].
Qed.

Lemma trimStart_nonempty (s : jsstring) :
  match trimStart s with [] => false | _ :: _ => true end = nonblank s.
Proof.
  induction s as [|c s IH]; simpl; [done|].
  by destruct (is_space c) eqn:Hc; simpl.
Qed.

Lemma nonblank_rev (s : jsstring) : nonblank (rev s) = nonblank s.
Proof.
  unfold nonblank. induction s as [|c s IH]; simpl; [done|].
  rewrite List.existsb_app, IH. simpl. rewrite orb_false_r. apply orb_comm.
Qed.

(** Trimming leaves something exactly of the texts that are not blank. *)
Lemma trim_nonempty (s : jsstring) : truthy (Some (trim s)) = nonblank s.
Proof.
  unfold truthy, trim, trimEnd.
  rewrite <- (trimStart_nonblank s), <- (nonblank_rev (trimStart s)),
    <- (trimStart_nonempty (rev (trimStart s))).
  by destruct (trimStart (rev (trimStart s))) as [|c t]; simpl;
    [|destruct (rev t ++ [c]) eqn:E; [by destruct (rev t)|]].
Qed.

Lemma plain_shown (v : CellValue) : plain v = true → toString v = shown_text v.
Proof. by destruct v. Qed.

(** On a cell that holds no object, the test of the code is the test of
    the specification. *)
Lemma truthy_cell_text (row : Row) (col : nat) :
  plain (getCell row col) = true →
  truthy (cell_text row col) = present_nonblank (getCell row col).
Proof.
  intros Hp. unfold cell_text, present_nonblank. rewrite <- (plain_shown _ Hp).
  destruct (toString (getCell row col)) as [s|]; simpl; [|done].
  apply trim_nonempty.
Qed.

Lemma accepted_plain_row (row : Row) :
  plain_row row = true → accepted row = complete_row row.
Proof.
  unfold plain_row, accepted, complete_row.
  intros [[H1 H2]%andb_prop H3]%andb_prop.
  by rewrite !truthy_cell_text.
Qed.

Lemma eachRow_callback_spec (rows : list Recipient) (row : Row) (rowNumber : nat) :
  eachRow_callback rows row rowNumber
  = rows ++ (if (1 <? rowNumber) && accepted row then [record_of row] else []).
Proof.
  unfold eachRow_callback, accepted, record_of.
  destruct (1 <? rowNumber); simpl; [|by rewrite app_nil_r].
  destruct (cell_text row 1) as [[|]|], (cell_text row 2) as [[|]|],
    (cell_text row 3) as [[|]|]; simpl; by rewrite ?app_nil_r.
Qed.

Lemma fold_eachRow (ws : Worksheet) : ∀ acc : list Recipient,
  fold_left (λ rows '(rowNumber, row), eachRow_callback rows row rowNumber) ws acc
  = acc ++ extract_rows ws.
Proof.
  unfold extract_rows.
  induction ws as [|[n row] ws IH]; intros acc; simpl.
  - by rewrite app_nil_r.
  - rewrite IH, (IH (eachRow_callback [] row n)), !eachRow_callback_spec.
    by rewrite app_assoc.
Qed.

Lemma extract_rows_app (a b : Worksheet) :
  extract_rows (a ++ b) = extract_rows a ++ extract_rows b.
Proof. unfold extract_rows at 1. rewrite fold_left_app. apply fold_eachRow. Qed.

Lemma extract_rows_cons (n : nat) (row : Row) (ws : Worksheet) :
  extract_rows ((n, row) :: ws)
  = (if (1 <? n) && accepted row then [record_of row] else []) ++ extract_rows ws.
Proof.
  unfold extract_rows at 1. simpl. rewrite fold_eachRow, eachRow_callback_spec. done.
Qed.

(** The header row, and any row numbered 1, is passed over. *)
Lemma header_is_skipped (row : Row) (ws : Worksheet) :
  extract_rows ((1, row) :: ws) = extract_rows ws.
Proof. by rewrite extract_rows_cons. Qed.

(** The run does not look at the sheet beyond the records it yields. *)
Lemma process_row_with_sheet (w : World) (ws : Worksheet) (t : Transporter)
    (tp : jsstring) (i : nat) (row : Recipient) :
  process_row (with_sheet w ws) t tp i row = process_row w t tp i row.
Proof. reflexivity. Qed.

Lemma for_rows_with_sheet (w : World) (ws : Worksheet) (t : Transporter)
    (tp : jsstring) (rows : list Recipient) : ∀ i : nat,
  for_rows (with_sheet w ws) t tp i rows = for_rows w t tp i rows.
Proof.
  induction rows as [|row rest IH]; intros i; simpl; [done|].
  by rewrite IH, process_row_with_sheet.
Qed.

Lemma run_with_sheet (w : World) (filePath : jsstring) (ws ws' : Worksheet) (s : Sys) :
  readFile w filePath = Ok (Some ws) →
  extract_rows ws = extract_rows ws' →
  processExcelFile w filePath s = processExcelFile (with_sheet w ws') filePath s.
Proof.
  intros Hread Hrows. unfold processExcelFile. unfold_m. rewrite Hread.
  cbn [readFile with_sheet]. rewrite Hrows.
  change (existsSync (with_sheet w ws')) with (existsSync w).
  change (template_path (with_sheet w ws')) with (template_path w).
  change (createTransporter (with_sheet w ws')) with (createTransporter w).
  destruct (negb (existsSync w (template_path w))); [done|].
  destruct (createTransporter w s) as [s1 [t|e]]; [|done].
  by rewrite for_rows_with_sheet.
Qed.

Lemma entries_le (w : World) (rows : list Recipient) : ∀ i : nat,
  length (entries w i rows) ≤ length rows.
Proof.
  induction rows as [|row rest IH]; intros i; simpl; [done|].
  specialize (IH (S i)). rewrite length_app.
  destruct (verdict w i row); simpl; lia.
Qed.

(** A row after the header whose first three cells hold no object
    becomes a record exactly when the three are present and not blank;
    otherwise the run is the run of the sheet without the row, and
    [total] counts the records only. *)
Lemma plain_rows_follow_the_rule (pre post : Worksheet) (n : nat) (row : Row) :
  1 < n →
  plain_row row = true →
  extract_rows (pre ++ (n, row) :: post)
  = extract_rows pre ++ (if complete_row row then [record_of row] else [])
    ++ extract_rows post
  ∧ (∀ w filePath s,
       complete_row row = false →
       readFile w filePath = Ok (Some (pre ++ (n, row) :: post)) →
       processExcelFile w filePath s
       = processExcelFile (with_sheet w (pre ++ post)) filePath s)
  ∧ (∀ w filePath files,
       passes_checks w filePath (pre ++ (n, row) :: post) →
       ∃ s r,
         processExcelFile w filePath (fresh files) = (s, Ok r)
         ∧ total r = length (extract_rows pre) + (if complete_row row then 1 else 0)
                     + length (extract_rows post)
         ∧ failed r ≤ total r).
Proof.
  intros Hn Hplain.
  assert (Hx : extract_rows (pre ++ (n, row) :: post)
               = extract_rows pre ++ (if complete_row row then [record_of row] else [])
                 ++ extract_rows post).
  { rewrite extract_rows_app, extract_rows_cons, (accepted_plain_row row Hplain).
    by replace (1 <? n) with true by (symmetry; apply Nat.ltb_lt; lia). }
  split; [exact Hx|split].
  - intros w filePath s Hrow Hread. apply (run_with_sheet w filePath _ _ s Hread).
    rewrite Hx, Hrow, extract_rows_app. done.
  - intros w filePath files Hp.
    destruct (run_passes w filePath _ (fresh files) Hp) as (d & tr & -> & _).
    eexists _, _. split; [reflexivity|].
    rewrite tally_eq. cbn [total failed].
    pose proof (entries_le w (extract_rows (pre ++ (n, row) :: post)) 0) as Hde.
    rewrite Hx in *. rewrite !length_app in *.
    destruct (complete_row row); simpl in *; lia.
Qed.

(** C6, the code at a failing input: a sheet with a header and one
    row whose name and phone are filled and whose email cell is a formula
    that shows nothing.  The row is not complete, yet it becomes a
    record, with the text [[object Object]] for email: [toString()] of
    the object the cell holds is neither empty nor blank. *)
Theorem blank_formula_becomes_record :
  complete_row eve = false
  ∧ present_nonblank (getCell eve 3) = false
  ∧ extract_rows (header_only ++ [(2, eve)])
    = [mkRecipient (lit "Eve Poe") (lit "5550105") (lit "[object Object]")]
  ∧ ∃ s r,
      processExcelFile (office (Ok (Some (header_only ++ [(2, eve)]))) true []) upload
        (fresh ∅) = (s, Ok r)
      ∧ total r = 1.
Proof.
  split; [reflexivity|]. split; [reflexivity|]. split; [reflexivity|].
  eexists _, _. split.
  - vm_compute. reflexivity.
  - reflexivity.
Qed.

(** ** The renderer *)

Lemma paint_size (img : Image) (data : Recipient) :
  canvas_width (paint img data) = width img
  ∧ canvas_height (paint img data) = height img.
Proof. by split. Qed.

(** C7: when the template loads with size W x H, the renderer, if no
    canvas or file call throws, writes at the output path a PNG of size
    exactly W x H; and whenever it returns at all, the file at the path it
    returns has that size. *)
Theorem artifact_has_template_size (w : World) (templatePath outputPath : jsstring)
    (data : Recipient) (s : Sys) (img : Image) :
  loadImage w templatePath = Ok img →
  (canvas_fault w outputPath data = None →
   ∃ png,
     generatePersonalizedImage w templatePath data outputPath s
     = (mkSys (results s) (<[outputPath := png]> (disk s)) (wire s)
              (trace s ++ [call_generate outputPath data]), Ok outputPath)
     ∧ png_width png = width img ∧ png_height png = height img)
  ∧ (∀ s' p,
       generatePersonalizedImage w templatePath data outputPath s = (s', Ok p) →
       ∃ png, disk s' !! p = Some png
              ∧ png_width png = width img ∧ png_height png = height img).
Proof.
  intros Hl. split.
  - intros Hc. exists (toBuffer (paint img data)).
    unfold generatePersonalizedImage. unfold_m. simpl. rewrite Hl, Hc. done.
  - intros s' p. unfold generatePersonalizedImage. unfold_m. simpl. rewrite Hl.
    destruct (canvas_fault w outputPath data); simpl; intros H; simplify_eq.
    exists (toBuffer (paint img data)). simpl. by rewrite lookup_insert_eq.
Qed.

Lemma artifact_has_template_size_witness :
  loadImage campaign (template_path campaign) = Ok (mkImage 1080 1350 (lit "template.png"))
  ∧ ∃ png,
      disk (generatePersonalizedImage campaign (template_path campaign)
              (mkRecipient (lit "Ann Lee") (lit "5550101") (lit "ann@example.com"))
              (card_path campaign 0) (fresh ∅)).1 !! card_path campaign 0 = Some png
      ∧ png_width png = 1080%Z ∧ png_height png = 1350%Z.
Proof.
  split; [reflexivity|].
  destruct (artifact_has_template_size campaign (template_path campaign)
              (card_path campaign 0)
              (mkRecipient (lit "Ann Lee") (lit "5550101") (lit "ann@example.com"))
              (fresh ∅) (mkImage 1080 1350 (lit "template.png")) eq_refl)
    as [H _].
  destruct (H eq_refl) as (png & -> & Hw & Hh).
  exists png. simpl. rewrite lookup_insert_eq. done.
Defined.

(** ** The delivery agent *)

Lemma runs_concat (s : jsstring) : concat (List.map snd (runs s)) = s.
Proof.
  induction s as [|c s IH]; simpl; [done|].
  destruct (runs s) as [|[b blk] rest]; simpl in *; [by subst|].
  destruct (Bool.eqb b (is_space c)); simpl; by rewrite IH.
Qed.

(** Every run is not empty and of one kind. *)
Lemma runs_uniform (s : jsstring) :
  Forall (λ '(b, blk), blk ≠ [] ∧ Forall (λ c, is_space c = b) blk) (runs s).
Proof.
  induction s as [|c s IH]; simpl; [constructor|].
  destruct (runs s) as [|[b blk] rest]; simpl.
  - repeat constructor. done.
  - destruct (Bool.eqb b (is_space c)) eqn:E.
    + apply Bool.eqb_prop in E. apply Forall_cons in IH as [[Hne Hblk] Hrest].
      subst b. constructor; [|done]. split; [done|]. by constructor.
    + constructor; [|done]. split; [done|]. by repeat constructor.
Qed.

(** Neighbouring runs differ in kind: the runs are maximal. *)
Lemma runs_alternate (s : jsstring) (k : nat) (b1 b2 : bool) (x y : jsstring) :
  runs s !! k = Some (b1, x) → runs s !! S k = Some (b2, y) → b1 ≠ b2.
Proof.
  revert k b1 b2 x y. induction s as [|c s IH]; intros k b1 b2 x y; simpl; [done|].
  destruct (runs s) as [|[b blk] rest] eqn:E; simpl; [done|].
  destruct (Bool.eqb b (is_space c)) eqn:Eb.
  - destruct k as [|k]; simpl.
    + intros ? Hy. simplify_eq. by apply (IH 0 b1 b2 blk y).
    + intros Hx Hy. by apply (IH (S k) b1 b2 x y).
  - destruct k as [|k]; simpl.
    + intros ? ?. simplify_eq. apply Bool.eqb_false_iff in Eb. congruence.
    + intros Hx Hy. by apply (IH k b1 b2 x y).
Qed.

Lemma replace_from_runs (s : jsstring) : ∀ in_run : bool,
  replace_from in_run s = hyphenate (if in_run then after_run (runs s) else runs s).
Proof.
  unfold hyphenate.
  induction s as [|c s IH]; intros in_run; simpl; [by destruct in_run|].
  pose proof (IH true) as Ht. pose proof (IH false) as Hf. clear IH.
  destruct (is_space c) eqn:Hc; rewrite ?Ht, ?Hf;
    destruct (runs s) as [|[[|] blk] rest]; destruct in_run; simpl; done.
Qed.

(** The scan of the source replaces every maximal whitespace run by one
    hyphen and keeps the rest. *)
Lemma replace_spaces_runs (s : jsstring) : replace_spaces s = hyphenate (runs s).
Proof. apply (replace_from_runs s false). Qed.

Lemma replace_from_no_space (s : jsstring) : ∀ in_run : bool,
  Forall (λ c, is_space c = false) (replace_from in_run s).
Proof.
  induction s as [|c s IH]; intros in_run; simpl; [constructor|].
  destruct (is_space c) eqn:Hc; [destruct in_run|]; try constructor; auto.
Qed.

(** C8: for a record, the delivery agent calls the transport once, with
    a mail addressed to the record's email, the fixed subject, the body
    template around the record's name, and one attachment, the image,
    named after the record's name with every whitespace run replaced. *)
Theorem one_mail_per_record (w : World) (t : Transporter) (recipient : Recipient)
    (imagePath : jsstring) (s : Sys) :
  ∃ m a,
    sendEmail w t recipient imagePath s
    = (mkSys (results s) (disk s) (wire s) (trace s ++ [call_sendMail m]),
       match sendMail_fault w m with Some e => Throw e | None => Ok tt end)
    ∧ from m = EMAIL w
    ∧ to m = email recipient
    ∧ subject m = lit "Your Personalized Investment Card"
    ∧ html m = html_before ++ name recipient ++ html_after
    ∧ attachments m = [a]
    ∧ path a = imagePath
    ∧ filename a = lit "investment-card-" ++ hyphenate (runs (name recipient)) ++ lit ".png"
    ∧ Forall (λ c, is_space c = false) (hyphenate (runs (name recipient))).
Proof.
  exists (mail_for w recipient imagePath),
    (mkAttachment (lit "investment-card-" ++ replace_spaces (name recipient) ++ lit ".png")
                  imagePath).
  split; [|repeat split].
  - unfold sendEmail, transporter_sendMail. unfold_m. simpl.
    by destruct (sendMail_fault w (mail_for w recipient imagePath)).
  - cbn [filename]. by rewrite replace_spaces_runs.
  - rewrite <- replace_spaces_runs. apply replace_from_no_space.
Qed.

(** ** Determinism *)





(** ** The error list *)

(** A run either passes the checks or ends at once with one error
    message, the counters being those it started with or the zeros of
    line 159. *)
Lemma run_cases (w : World) (filePath : jsstring) (s : Sys) :
  (∃ ws, passes_checks w filePath ws)
  ∨ ∃ e r0,
      processExcelFile w filePath s
      = (mkSys r0 (disk s) (wire s ++ [error e]) (trace s), Throw e)
      ∧ (r0 = results s ∨ r0 = mkResults 0 0 0 []).
Proof.
  unfold passes_checks, processExcelFile, createTransporter. unfold_m.
  destruct (readFile w filePath) as [[ws|]|e0]; simpl;
    destruct (existsSync w (template_path w)); simpl;
    destruct (truthy (EMAIL w)); simpl;
    destruct (truthy (APP_PASSWORD w)); simpl;
    destruct (mailer_fault w); simpl;
    try (right; eexists _, _; split; [reflexivity|]; by (left + right)).
  left. by exists ws.
Qed.

Lemma process_row_errors_match (w : World) (t : Transporter) (i : nat)
    (row : Recipient) (s : Sys) :
  errors_match (results s) →
  errors_match (results (process_row w t (template_path w) i row s).1).
Proof.
  intros H. rewrite process_row_exact. cbn [fst results].
  by apply turn_results_errors_match.
Qed.

(** C10: in every run, at the end and at every progress or completion
    message, [errors] has as many entries as [failed] counts, and each
    turn of the loop keeps it so; the entry of a failed record is its
    name, then a colon and a space, then the message of the error, and in
    a run that passes the checks [errors] holds these entries in the order
    of the records. *)
Theorem errors_list_matches_failed (w : World) (filePath : jsstring)
    (files : gmap jsstring Png) :
  errors_match (results (processExcelFile w filePath (fresh files)).1)
  ∧ Forall event_errors_match (wire (processExcelFile w filePath (fresh files)).1)
  ∧ (∀ t i row s,
       errors_match (results s) →
       errors_match (results (process_row w t (template_path w) i row s).1))
  ∧ (∀ t i row s e,
       verdict w i row = Some e →
       errors (results (process_row w t (template_path w) i row s).1)
       = errors (results s) ++ [name row ++ lit ": " ++ e])
  ∧ (∀ ws,
       passes_checks w filePath ws →
       errors (results (processExcelFile w filePath (fresh files)).1)
       = entries w 0 (extract_rows ws)).
Proof.
  assert (Hrun : errors_match (results (processExcelFile w filePath (fresh files)).1)
                 ∧ Forall event_errors_match
                     (wire (processExcelFile w filePath (fresh files)).1)).
  { destruct (run_cases w filePath (fresh files)) as [[ws Hp]|(e & r0 & -> & Hr0)].
    - destruct (run_passes w filePath ws (fresh files) Hp) as (d & tr & -> & _).
      cbn [fst results wire fresh app]. unfold errors_match.
      rewrite tally_eq. cbn [errors failed app]. split; [done|].
      constructor; [done|]. apply Forall_app. split.
      + by apply updates_errors_match.
      + by repeat constructor.
    - cbn [fst results wire fresh app]. split.
      + by destruct Hr0 as [->| ->].
      + by repeat constructor. }
  destruct Hrun as [H1 H2]. repeat split; [exact H1|exact H2|..].
  - intros t i row s. apply process_row_errors_match.
  - intros t i row s e Hv. rewrite process_row_exact. cbn [fst results].
    unfold turn_results. rewrite Hv. by destruct (mailed w i row).
  - intros ws Hp.
    destruct (run_passes w filePath ws (fresh files) Hp) as (d & tr & -> & _).
    cbn [fst results]. by rewrite tally_eq.
Qed.

Lemma errors_list_matches_failed_witness :
  passes_checks campaign upload roster
  ∧ errors (results (processExcelFile campaign upload (fresh ∅)).1)
    = [lit "Bob Ray" ++ lit ": " ++ lit "Mailbox unavailable"]
  ∧ failed (results (processExcelFile campaign upload (fresh ∅)).1) = 1.
Proof.
  destruct (errors_list_matches_failed campaign upload ∅) as (Hm & _ & _ & _ & He).
  split; [by repeat split|].
  assert (Hentries : errors (results (processExcelFile campaign upload (fresh ∅)).1)
                     = [lit "Bob Ray" ++ lit ": " ++ lit "Mailbox unavailable"]).
  { rewrite (He roster); [by vm_compute | by repeat split]. }
  split; [exact Hentries|].
  unfold errors_match in Hm. rewrite <- Hm, Hentries. reflexivity.
Defined.

(** * Further properties of the server *)

(** ** The run in full *)

(** ** The shape of the event stream *)


(** X2: a sheet that yields no record gives a run of two messages, the
    first progress message and the completion message, both with zero
    counters and total 0; nothing is rendered, mailed or written. *)
Theorem empty_batch_completes (w : World) (filePath : jsstring) (ws : Worksheet)
    (s : Sys) :
  passes_checks w filePath ws →
  extract_rows ws = [] →
  processExcelFile w filePath s
  = (mkSys (mkResults 0 0 0 []) (disk s)
           (wire s ++ [first_update 0; last_update (mkResults 0 0 0 [])])
           (trace s), Ok (mkResults 0 0 0 [])).
Proof.
  intros Hp Hrows. rewrite (run_exact w filePath ws s Hp), Hrows. simpl.
  by rewrite app_nil_r.
Qed.

Lemma empty_batch_completes_witness :
  passes_checks (office (Ok (Some (header_only ++ [(2, cy)]))) true []) upload
    (header_only ++ [(2, cy)])
  ∧ extract_rows (header_only ++ [(2, cy)]) = []
  ∧ processExcelFile (office (Ok (Some (header_only ++ [(2, cy)]))) true []) upload
      (fresh ∅)
    = (mkSys (mkResults 0 0 0 []) ∅
             [first_update 0; last_update (mkResults 0 0 0 [])] [],
       Ok (mkResults 0 0 0 [])).
Proof.
  split; [by repeat split|]. split; [reflexivity|].
  apply (empty_batch_completes
           (office (Ok (Some (header_only ++ [(2, cy)]))) true []) upload
           (header_only ++ [(2, cy)]) (fresh ∅)).
  - by repeat split.
  - reflexivity.
Defined.

(** X3: when the three checks pass but the workbook has no first sheet,
    the run still ends in one error message: [eachRow] is called on
    [undefined] before the first progress message is written.  The
    counters are those of line 159 and no record is touched. *)
Theorem missing_sheet_aborts (w : World) (filePath : jsstring) (s : Sys) :
  readFile w filePath = Ok None →
  existsSync w (template_path w) = true →
  truthy (EMAIL w) = true →
  truthy (APP_PASSWORD w) = true →
  mailer_fault w = None →
  ∃ e,
    processExcelFile w filePath s
    = (mkSys (mkResults 0 0 0 []) (disk s) (wire s ++ [error e]) (trace s), Throw e).
Proof.
  intros Hread Hex He Hp Hm. exists no_worksheet.
  unfold processExcelFile. unfold_m. rewrite Hread, Hex. simpl.
  by rewrite (createTransporter_passes w s He Hp Hm).
Qed.

Lemma missing_sheet_aborts_witness :
  readFile (office (Ok None) true []) upload = Ok None
  ∧ ∃ e,
      processExcelFile (office (Ok None) true []) upload (fresh ∅)
      = (mkSys (mkResults 0 0 0 []) ∅ [error e] [], Throw e).
Proof.
  split; [reflexivity|].
  apply (missing_sheet_aborts (office (Ok None) true []) upload (fresh ∅));
    reflexivity.
Defined.

(** ** The indices of the progress messages *)

Lemma updates_indices (w : World) (rows : list Recipient) : ∀ (i : nat) (r : Results),
  omap index_of (updates w i rows r) = reported_positions w i rows.
Proof.
  induction rows as [|row rest IH]; intros i r; simpl; [done|].
  rewrite omap_app, IH. unfold turn_update. by destruct (verdict w i row).
Qed.

Lemma reported_positions_bounds (w : World) (rows : list Recipient) : ∀ i : nat,
  Forall (λ c, i < c ≤ i + length rows) (reported_positions w i rows).
Proof.
  induction rows as [|row rest IH]; intros i; simpl; [constructor|].
  assert (Forall (λ c, i < c ≤ i + S (length rest)) (reported_positions w (S i) rest)).
  { eapply Forall_impl; [apply IH|]. simpl. intros; lia. }
  destruct (verdict w i row); [done|]. constructor; [lia|done].
Qed.

Lemma reported_positions_sorted (w : World) (rows : list Recipient) : ∀ i : nat,
  StronglySorted lt (reported_positions w i rows).
Proof.
  induction rows as [|row rest IH]; intros i; simpl; [constructor|].
  destruct (verdict w i row); [apply IH|].
  constructor; [apply IH|].
  eapply Forall_impl; [apply (reported_positions_bounds w rest (S i))|].
  simpl. intros; lia.
Qed.

Lemma reported_positions_length (w : World) (rows : list Recipient) : ∀ i : nat,
  length (reported_positions w i rows) + length (entries w i rows) = length rows.
Proof.
  induction rows as [|row rest IH]; intros i; simpl; [done|].
  specialize (IH (S i)). rewrite ?length_app.
  destruct (verdict w i row); simpl; lia.
Qed.

(** X4: in a run that passes the checks, the [currentIndex] values
    written to the socket are, in order, the positions (from 1) of the
    records whose turn ended without an error: strictly increasing,
    between 1 and the number of records, and together with [failed] as
    many as there are records. *)
Theorem indices_are_reported_positions (w : World) (filePath : jsstring)
    (ws : Worksheet) (files : gmap jsstring Png) :
  passes_checks w filePath ws →
  omap index_of (wire (processExcelFile w filePath (fresh files)).1)
  = reported_positions w 0 (extract_rows ws)
  ∧ StronglySorted lt (reported_positions w 0 (extract_rows ws))
  ∧ Forall (λ c, 1 ≤ c ≤ length (extract_rows ws))
           (reported_positions w 0 (extract_rows ws))
  ∧ length (reported_positions w 0 (extract_rows ws))
    + failed (results (processExcelFile w filePath (fresh files)).1)
    = length (extract_rows ws).
Proof.
  intros Hp. rewrite (run_exact w filePath ws (fresh files) Hp).
  cbn [fst wire results fresh app]. repeat split.
  - cbn [omap list_omap index_of first_update currentIndex].
    rewrite omap_app, updates_indices. simpl. by rewrite app_nil_r.
  - apply reported_positions_sorted.
  - eapply Forall_impl; [apply (reported_positions_bounds w (extract_rows ws) 0)|].
    simpl. intros; lia.
  - rewrite tally_eq. cbn [failed]. apply reported_positions_length.
Qed.

Lemma indices_are_reported_positions_witness :
  passes_checks busy_disk upload roster
  ∧ omap index_of (wire (processExcelFile busy_disk upload (fresh ∅)).1) = [1; 3]
  ∧ success (results (processExcelFile busy_disk upload (fresh ∅)).1) = 3.
Proof.
  split; [repeat split; reflexivity|].
  destruct (indices_are_reported_positions busy_disk upload roster ∅) as (H & _).
  - repeat split; reflexivity.
  - rewrite H. clear. vm_compute. split; reflexivity.
Defined.

(** ** The calls of a run *)

Lemma calls_sendMail (w : World) (rows : list Recipient) : ∀ i : nat,
  List.filter is_sendMail (calls w i rows) = mails w i rows.
Proof.
  induction rows as [|row rest IH]; intros i; simpl; [done|].
  rewrite List.filter_app, IH. unfold turn_calls.
  by destruct (render_fault w i row), (send_fault w i row).
Qed.

Lemma calls_unlink (w : World) (rows : list Recipient) : ∀ i : nat,
  length (List.filter is_unlink (calls w i rows)) = deliveries w i rows.
Proof.
  induction rows as [|row rest IH]; intros i; simpl; [done|].
  rewrite List.filter_app, length_app, IH. unfold turn_calls, mailed.
  by destruct (render_fault w i row), (send_fault w i row).
Qed.

(** X5: in a run that passes the checks the collaborators are called
    record by record, in order: the renderer once for every record; the
    transport once, with the record's mail and card, for every record
    whose rendering did not throw, and never for the others; the card is
    unlinked once for every record that was mailed, and never otherwise. *)
Theorem transport_follows_render (w : World) (filePath : jsstring)
    (ws : Worksheet) (s : Sys) :
  passes_checks w filePath ws →
  ∃ tr,
    trace (processExcelFile w filePath s).1 = trace s ++ tr
    ∧ tr = calls w 0 (extract_rows ws)
    ∧ List.filter is_generate tr = generate_calls w 0 (extract_rows ws)
    ∧ List.filter is_sendMail tr = mails w 0 (extract_rows ws)
    ∧ length (List.filter is_unlink tr)
      = success (results (processExcelFile w filePath s).1).
Proof.
  intros Hp. rewrite (run_exact w filePath ws s Hp). cbn [fst trace results].
  exists (calls w 0 (extract_rows ws)). repeat split.
  - apply calls_generate.
  - apply calls_sendMail.
  - by rewrite calls_unlink, tally_eq.
Qed.

Lemma transport_follows_render_witness :
  passes_checks (office (Ok (Some roster)) true [lit "bob@example.com"]) upload roster
  ∧ ∃ tr,
      trace (processExcelFile campaign upload (fresh ∅)).1 = tr
      ∧ length (List.filter is_generate tr) = 3
      ∧ length (List.filter is_sendMail tr) = 3
      ∧ length (List.filter is_unlink tr) = 2.
Proof.
  split; [by repeat split|].
  destruct (transport_follows_render campaign upload roster (fresh ∅))
    as (tr & Htr & -> & Hg & Hm & Hu); [by repeat split|].
  exists (calls campaign 0 (extract_rows roster)).
  split; [exact Htr|]. clear. vm_compute. repeat split; reflexivity.
Defined.

(** ** The files of a run *)

Lemma lit_inj (a b : string) : lit a = lit b → a = b.
Proof.
  unfold lit. intros H.
  rewrite <- (string_of_list_ascii_of_string a), <- (string_of_list_ascii_of_string b).
  f_equal. revert H. generalize (list_ascii_of_string a) (list_ascii_of_string b).
  induction l as [|x l IH]; intros [|y l'] H; simpl in H; try done.
  injection H as Hxy Hl. f_equal; [|by apply IH].
  by rewrite <- (ascii_N_embedding x), <- (ascii_N_embedding y), Hxy.
Qed.

Lemma of_nat_inj (n m : nat) : of_nat n = of_nat m → n = m.
Proof.
  unfold of_nat. intros H%lit_inj. apply Unsigned.to_uint_inj.
  assert (Hparse : ∀ k, option_map Nat.of_uint
                          (NilZero.uint_of_string
                             (NilZero.string_of_uint (Nat.to_uint k))) = Some k).
  { intros k. pose proof (Unsigned.of_to k) as Hk.
    destruct (Nat.to_uint k) eqn:E;
      [simpl in *; by subst | rewrite NilZero.usu by done; simpl; by rewrite Hk ..]. }
  pose proof (Hparse n) as Hn. rewrite H, Hparse in Hn. by simplify_eq.
Qed.








(** ** The fields of a record *)

Lemma trimStart_head (s : jsstring) (c : N) (t : jsstring) :
  trimStart s = c :: t → is_space c = false.
Proof.
  induction s as [|x s IH]; simpl; [done|].
  destruct (is_space x) eqn:Hx; [exact IH|]. intros H. by simplify_eq.
Qed.

Lemma trimStart_snoc (l : jsstring) (c : N) :
  is_space c = false → trimStart (l ++ [c]) = trimStart l ++ [c].
Proof.
  intros Hc. induction l as [|x l IH]; simpl; [by rewrite Hc|].
  by destruct (is_space x).
Qed.

Lemma last_default_snoc (l : jsstring) (e d : N) : List.last (l ++ [e]) d = e.
Proof. apply List.last_last. Qed.

(** Trimming a text that is not blank leaves a text that is not empty
    and neither starts nor ends with whitespace. *)
Lemma trim_trimmed (s : jsstring) : nonblank s = true → trimmed (trim s) = true.
Proof.
  intros Hs. unfold trim, trimEnd.
  rewrite <- trimStart_nonblank, <- trimStart_nonempty in Hs.
  destruct (trimStart s) as [|c t] eqn:E; [done|]. clear Hs.
  pose proof (trimStart_head s c t E) as Hc.
  cbn [rev]. rewrite (trimStart_snoc (rev t) c Hc), rev_app_distr. cbn [rev app].
  unfold trimmed. rewrite Hc. cbn [negb andb].
  destruct (trimStart (rev t)) as [|e u] eqn:Eu; simpl; [by rewrite Hc|].
  pose proof (trimStart_head (rev t) e u Eu) as He.
  destruct (rev u ++ [e]) eqn:Eru; [by destruct (rev u)|].
  by rewrite <- Eru, last_default_snoc, He.
Qed.

Lemma cell_text_trimmed (row : Row) (col : nat) :
  truthy (cell_text row col) = true →
  trimmed (default [] (cell_text row col)) = true.
Proof.
  unfold cell_text.
  destruct (toString (getCell row col)) as [s|]; simpl; [|done].
  change (match trim s with [] => false | _ :: _ => true end)
    with (truthy (Some (trim s))).
  rewrite trim_nonempty. apply trim_trimmed.
Qed.

Lemma extract_rows_elem (ws : Worksheet) (r : Recipient) :
  r ∈ extract_rows ws →
  ∃ n row, (n, row) ∈ ws ∧ 1 < n ∧ accepted row = true ∧ r = record_of row.
Proof.
  induction ws as [|[n row] ws IH]; [by intros ?%elem_of_nil|].
  rewrite extract_rows_cons. intros [H|H]%elem_of_app.
  - destruct (1 <? n) eqn:Hn; simpl in H; [|by apply elem_of_nil in H].
    destruct (accepted row) eqn:Hrow; [|by apply elem_of_nil in H].
    apply list_elem_of_singleton in H. exists n, row.
    apply Nat.ltb_lt in Hn. repeat split; [left|lia|done|done].
  - destruct (IH H) as (n' & row' & Hin & ?). exists n', row'.
    split; [by right|done].
Qed.

(** X7: every record the extractor yields has a name, a phone and an
    email that are not empty and neither start nor end with whitespace. *)
Theorem extracted_fields_are_trimmed (ws : Worksheet) (r : Recipient) :
  r ∈ extract_rows ws →
  trimmed (name r) = true ∧ trimmed (phone r) = true ∧ trimmed (email r) = true.
Proof.
  intros (n & row & _ & _ & Hrow & ->)%extract_rows_elem.
  unfold accepted in Hrow.
  apply andb_prop in Hrow as [Hrow H3]. apply andb_prop in Hrow as [H1 H2].
  unfold record_of. cbn [name phone email].
  repeat split; by apply cell_text_trimmed.
Qed.

Lemma extracted_fields_are_trimmed_witness :
  mkRecipient (lit "Bob Ray") (lit "5550102") (lit "bob@example.com")
  ∈ extract_rows roster
  ∧ trimmed (lit "Bob Ray") = true.
Proof.
  assert (H : mkRecipient (lit "Bob Ray") (lit "5550102") (lit "bob@example.com")
              ∈ extract_rows roster).
  { vm_compute. right. left. }
  split; [exact H|].
  exact (proj1 (extracted_fields_are_trimmed roster _ H)).
Defined.

(** X8: a row numbered 1 never becomes a record, whatever its cells
    hold: the sheet yields the records it would yield without it. *)
Theorem row_one_is_never_a_record (pre post : Worksheet) (row : Row) :
  extract_rows (pre ++ (1, row) :: post) = extract_rows pre ++ extract_rows post.
Proof. by rewrite extract_rows_app, extract_rows_cons. Qed.

(** ** The attachment name *)

Lemma replace_from_id (s : jsstring) : ∀ in_run : bool,
  Forall (λ c, is_space c = false) s → replace_from in_run s = s.
Proof.
  induction s as [|c s IH]; intros in_run H; simpl; [done|].
  apply Forall_cons in H as [Hc Hs]. rewrite Hc. by rewrite IH.
Qed.

Lemma replace_from_length (s : jsstring) : ∀ in_run : bool,
  length (replace_from in_run s) ≤ length s.
Proof.
  induction s as [|c s IH]; intros in_run; simpl; [done|].
  pose proof (IH true). pose proof (IH false).
  destruct (is_space c), in_run; simpl; lia.
Qed.

(** X9: replacing whitespace runs is idempotent and never lengthens a
    text; so a name and the name with its whitespace runs already turned
    into hyphens get the same attachment file name. *)
Theorem replace_spaces_idempotent (s : jsstring) :
  replace_spaces (replace_spaces s) = replace_spaces s
  ∧ length (replace_spaces s) ≤ length s
  ∧ ∀ w r1 r2 imagePath,
      name r2 = replace_spaces (name r1) →
      (filename <$> attachments (mail_for w r1 imagePath))
      = (filename <$> attachments (mail_for w r2 imagePath)).
Proof.
  assert (Hidem : ∀ x, replace_spaces (replace_spaces x) = replace_spaces x).
  { intros x. apply replace_from_id, replace_from_no_space. }
  split; [apply Hidem|]. split; [apply replace_from_length|].
  intros w r1 r2 imagePath H. unfold mail_for. cbn [attachments fmap list_fmap filename].
  by rewrite H, Hidem.
Qed.

Lemma replace_spaces_idempotent_witness :
  replace_spaces (lit "Ann   Lee") = lit "Ann-Lee"
  ∧ (filename <$> attachments
       (mail_for campaign (mkRecipient (lit "Ann   Lee") [] []) []))
    = (filename <$> attachments
         (mail_for campaign (mkRecipient (lit "Ann-Lee") [] []) [])).
Proof.
  split; [reflexivity|].
  destruct (replace_spaces_idempotent (lit "Ann   Lee")) as (_ & _ & H).
  apply H. reflexivity.
Defined.

(** ** Credentials *)

(** X10: the health route reports [emailConfigured] exactly when
    [createTransporter] gets past its credential check.  Either one of
    the two variables is unset or empty, the route reports [false] and
    [createTransporter] throws its own error, or both are set and not
    empty, the route reports [true] and [createTransporter] asks the mail
    library for a gmail transport with these two values. *)
Theorem health_agrees_with_createTransporter (w : World) (now_iso : jsstring) (s : Sys) :
  (emailConfigured (health w now_iso) = false
   ∧ createTransporter w s = (s, Throw (lit "Email credentials not configured")))
  ∨ (emailConfigured (health w now_iso) = true
     ∧ ∃ user pass,
         EMAIL w = Some user ∧ user ≠ []
         ∧ APP_PASSWORD w = Some pass ∧ pass ≠ []
         ∧ createTransporter w s
           = (s, match mailer_fault w with
                 | Some e => Throw e
                 | None => Ok (mkTransporter (lit "gmail") user pass)
                 end)).
Proof.
  unfold health, js_and, createTransporter. cbn [emailConfigured].
  destruct (EMAIL w) as [[|a user]|]; simpl; try (by left).
  destruct (APP_PASSWORD w) as [[|b pass]|]; simpl; try (by left).
  right. split; [done|]. exists (a :: user), (b :: pass).
  repeat split; try done. by destruct (mailer_fault w).
Qed.

(** ** The renderer, continued *)



(** ** Uploads *)

Lemma lit_cons (c : ascii) (s : string) : lit (String c s) = N_of_ascii c :: lit s.
Proof. reflexivity. Qed.

Lemma digits_of_uint (d : Decimal.uint) :
  Forall (λ c, (48 ≤ c ≤ 57)%N) (lit (NilEmpty.string_of_uint d)).
Proof.
  induction d; simpl; [constructor|rewrite lit_cons; constructor; [done|exact IHd] ..].
Qed.

Lemma of_nat_digits (n : nat) : Forall (λ c, (48 ≤ c ≤ 57)%N) (of_nat n).
Proof.
  unfold of_nat, NilZero.string_of_uint.
  destruct (Nat.to_uint n) eqn:E; [by repeat constructor|rewrite <- E; apply digits_of_uint ..].
Qed.

Lemma split_at_first (x : N) (a b r1 r2 : jsstring) :
  Forall (λ c, c ≠ x) a → Forall (λ c, c ≠ x) b →
  a ++ x :: r1 = b ++ x :: r2 → a = b ∧ r1 = r2.
Proof.
  revert b. induction a as [|c a IH]; intros [|c' b] Ha Hb H; simpl in H.
  - by simplify_eq.
  - simplify_eq. by apply Forall_cons in Hb as [? _].
  - simplify_eq. by apply Forall_cons in Ha as [? _].
  - apply Forall_cons in Ha as [_ Ha]. apply Forall_cons in Hb as [_ Hb].
    injection H as -> H. destruct (IH b Ha Hb H) as [-> ->]. done.
Qed.

(** X13: the name under which an upload is stored ends with the
    original name and determines both the upload time and the original
    name: two uploads get the same stored name only if they have the same
    time stamp and the same original name. *)
Theorem stored_name_determines_upload (now1 now2 : nat) (n1 n2 : jsstring) :
  n1 `suffix_of` storage_filename now1 n1
  ∧ (storage_filename now1 n1 = storage_filename now2 n2 → now1 = now2 ∧ n1 = n2).
Proof.
  split.
  - exists (of_nat now1 ++ lit "-"). unfold storage_filename. by rewrite <- app_assoc.
  - unfold storage_filename. change (lit "-") with [hyphen]. simpl. intros H.
    assert (Hd : ∀ n, Forall (λ c, c ≠ hyphen) (of_nat n)).
    { intros n. eapply Forall_impl; [apply of_nat_digits|].
      unfold hyphen. simpl. intros c Hc ->. lia. }
    destruct (split_at_first hyphen _ _ _ _ (Hd now1) (Hd now2) H) as [Hn ->].
    split; [by apply of_nat_inj | done].
Qed.

Lemma stored_name_determines_upload_witness :
  storage_filename 1700 (lit "roster.xlsx")
  = lit "1700-roster.xlsx"
  ∧ (storage_filename 1700 (lit "roster.xlsx")
     = storage_filename 1700 (lit "roster.xlsx")
     → 1700 = 1700 ∧ lit "roster.xlsx" = lit "roster.xlsx").
Proof.
  split; [by vm_compute|].
  exact (proj2 (stored_name_determines_upload 1700 1700
                  (lit "roster.xlsx") (lit "roster.xlsx"))).
Defined.

(** X14: the drop handler of the client and the upload filter of the
    server accept the same files: a dropped file becomes the selected
    file exactly when its type is the one the filter lets through;
    otherwise the selection is left as it was and an alert is shown.
    The file picker, in contrast, selects whatever it is given. *)
Theorem drop_agrees_with_filter (f : App.File) (rest : list App.File) (st : App.State) :
  (fileFilter (App.type f) = Ok true
   ∧ App.handleDrop (f :: rest) st = (App.mkState (Some f) false, None))
  ∨ (fileFilter (App.type f) = Throw (lit "Only .xlsx files are allowed!")
     ∧ App.handleDrop (f :: rest) st
       = (App.mkState (App.file st) false, Some (lit "Please upload only .xlsx files"))
     ∧ App.file (App.handleFileSelect (f :: rest) st) = Some f).
Proof.
  unfold fileFilter, App.handleDrop, App.handleFileSelect, xlsx_mimetype.
  destruct (decide (App.type f
                    = lit "application/vnd.openxmlformats-officedocument.spreadsheetml.sheet"));
    [left|right]; done.
Qed.

(** ** Directories *)

(** X15: [ensureDirectories] leaves every directory that exists in
    place, makes [uploads], [generated] and [assets] exist under the
    server's directory, adds nothing else, and changes nothing when run
    a second time. *)
Theorem ensureDirectories_spec (dirname : jsstring) (present : gset jsstring) :
  ensureDirectories dirname present
  = present ∪ {[ path_join [dirname; lit "uploads"] ]}
            ∪ {[ path_join [dirname; lit "generated"] ]}
            ∪ {[ path_join [dirname; lit "assets"] ]}
  ∧ ensureDirectories dirname (ensureDirectories dirname present)
    = ensureDirectories dirname present.
Proof.
  assert (Hone : ∀ (p : jsstring) (fs : gset jsstring),
             (if bool_decide (p ∈ fs) then fs else {[p]} ∪ fs) = fs ∪ {[p]}).
  { intros p fs. case_bool_decide as Hp; [|apply (comm_L (∪))].
    apply set_eq. intros q. rewrite elem_of_union, elem_of_singleton.
    split; [by left | by intros [?| ->]]. }
  assert (H : ∀ fs : gset jsstring,
             ensureDirectories dirname fs
             = fs ∪ {[ path_join [dirname; lit "uploads"] ]}
                  ∪ {[ path_join [dirname; lit "generated"] ]}
                  ∪ {[ path_join [dirname; lit "assets"] ]}).
  { intros fs. unfold ensureDirectories. cbn [foldl]. by rewrite !Hone. }
  split; [apply H|]. rewrite !H. apply set_eq. intros q.
  rewrite !elem_of_union, !elem_of_singleton. tauto.
Qed.

(** ** The simulated run of the client *)

Lemma last_cons (A : Type) (a d : A) (l : list A) :
  List.last (a :: l) d = List.last l a.
Proof.
  revert a d. induction l as [|b l IH]; intros a d; [reflexivity|].
  change (List.last (a :: b :: l) d) with (List.last (b :: l) d).
  by rewrite (IH b d), (IH b a).
Qed.

Lemma simulate_counts (draws : nat → bool) (data : list Recipient) :
  ∀ (i : nat) (prev : App.ProcessingStatus),
    App.success prev + App.failed prev = i →
    Forall (λ st, App.total st = App.total prev
                  ∧ App.processing st = App.processing prev
                  ∧ ∃ k, App.currentIndex st = Some k
                         ∧ App.success st + App.failed st = k
                         ∧ i < k ≤ i + length data)
           (App.simulate draws i data prev)
    ∧ App.total (List.last (App.simulate draws i data prev) prev) = App.total prev
    ∧ App.success (List.last (App.simulate draws i data prev) prev)
      + App.failed (List.last (App.simulate draws i data prev) prev)
      = i + length data
    ∧ (data ≠ [] →
       App.currentIndex (List.last (App.simulate draws i data prev) prev)
       = Some (i + length data)).
Proof.
  induction data as [|x rest IH]; intros i prev Hi.
  - simpl. repeat split; [constructor|lia|done].
  - cbn [App.simulate]. rewrite last_cons.
    assert (Hn : App.success (App.step (draws i) i prev)
                 + App.failed (App.step (draws i) i prev) = S i).
    { simpl. destruct (draws i); lia. }
    destruct (IH (S i) (App.step (draws i) i prev) Hn) as (Hall & Ht & Hc & Hk).
    repeat split.
    + constructor.
      * split; [done|]. split; [done|]. exists (i + 1). simpl.
        destruct (draws i); repeat split; lia.
      * eapply Forall_impl; [exact Hall|]. simpl.
        intros st (? & ? & k & ? & ? & ?). repeat split; try done.
        exists k. repeat split; try done; lia.
    + by rewrite Ht.
    + rewrite Hc. simpl. lia.
    + intros _. destruct rest as [|y rest'].
      * simpl. f_equal; lia.
      * rewrite Hk by done. f_equal; simpl; lia.
Qed.

(** X16: in the simulated run of the client, whatever the random draws,
    every value the status takes has the counters add up to its
    [currentIndex] (to 0 while it has none), never more than [total], and
    the last value has [processing] off, all five records counted and
    [currentIndex] 5. *)
Theorem simulation_counts_every_record (draws : nat → bool) :
  Forall (λ st, App.success st + App.failed st = default 0 (App.currentIndex st)
                ∧ default 0 (App.currentIndex st) ≤ 5)
         (App.handleProcess draws)
  ∧ ∃ final,
      last (App.handleProcess draws) = Some final
      ∧ App.processing final = false
      ∧ App.total final = 5
      ∧ App.success final + App.failed final = 5
      ∧ App.currentIndex final = Some 5.
Proof.
  destruct (simulate_counts draws App.mockData 0
              (App.mkStatus (length App.mockData) 0 0 true None None) eq_refl)
    as (Hall & Ht & Hc & Hk).
  specialize (Hk ltac:(done)).
  unfold App.handleProcess.
  set (during := App.simulate draws 0 App.mockData
                   (App.mkStatus (length App.mockData) 0 0 true None None)) in *.
  set (prev := List.last during
                 (App.mkStatus (length App.mockData) 0 0 true None None)) in *.
  cbn [App.total] in Ht. change (length App.mockData) with 5 in *.
  cbn [Nat.add] in Hc, Hk.
  split.
  - cbn [app]. constructor; [simpl; lia|]. constructor; [simpl; lia|].
    apply Forall_app. split.
    + eapply Forall_impl; [exact Hall|]. simpl.
      intros st (_ & _ & k & -> & Hk' & Hle). simpl. split; [exact Hk' | apply Hle].
    + constructor; [|constructor]. cbn [App.success App.failed App.currentIndex].
      rewrite Hk. simpl. split; [exact Hc | done].
  - eexists. split; [rewrite app_assoc; apply last_snoc|].
    cbn [App.processing App.total App.success App.failed App.currentIndex].
    split; [reflexivity|]. split; [exact Ht|]. split; [exact Hc | exact Hk].
Qed.

(** ** Upload, then process *)



(** ** The extractor as a whole *)

(** X18: on a sheet whose rows after the first hold no object in
    their first three cells, the extractor keeps, in sheet order and with
    repetitions, the rows numbered above 1 whose three cells are present
    and not blank, and nothing else; on any sheet it never yields more
    records than the sheet has rows. *)
Theorem extractor_keeps_order (ws : Worksheet) :
  ((∀ n row, (n, row) ∈ ws → 1 < n → plain_row row = true) →
   extract_rows ws = complete_rows ws)
  ∧ length (extract_rows ws) ≤ length ws.
Proof.
  split.
  - unfold complete_rows. induction ws as [|[n row] ws IH]; intros Hplain; [done|].
    rewrite extract_rows_cons, IH.
    + simpl. destruct (1 <? n) eqn:Hn; [|done]. apply Nat.ltb_lt in Hn.
      rewrite (accepted_plain_row row); [|apply (Hplain n); [left|done]].
      simpl. by destruct (complete_row row).
    + intros n' row' Hin. apply Hplain. by right.
  - induction ws as [|[n row] ws IH]; [done|].
    rewrite extract_rows_cons, length_app. cbn [length].
    destruct ((1 <? n) && accepted row); simpl; lia.
Qed.

Lemma extractor_keeps_order_witness :
  (∀ n row, (n, row) ∈ roster → 1 < n → plain_row row = true)
  ∧ extract_rows roster = complete_rows roster
  ∧ length (extract_rows roster) = 3.
Proof.
  assert (Hplain : ∀ n row, (n, row) ∈ roster → 1 < n → plain_row row = true).
  { intros n row Hin _. unfold roster in Hin.
    repeat (apply elem_of_cons in Hin as [Hin|Hin]; [by simplify_eq|]).
    by apply elem_of_nil in Hin. }
  split; [exact Hplain|].
  split; [exact (proj1 (extractor_keeps_order roster) Hplain) | reflexivity].
Defined.
